(** * container.nvim: the gopls workspace-recognition probe

    A shallow embedding of [test_gopls_workspace.py]: the message codec
    [create_lsp_message], the probe [test_workspace_recognition] with its
    inline result classifier, and the scenario runner of the [__main__]
    block.

    Python values are modelled as follows.
    - [str] is a sequence of Unicode code points, [list N].
    - The objects handed to [json.dumps] are [None], [bool], [int], [str],
      [list] and [dict] with [str] keys; a [dict] keeps insertion order and
      is an association list.  Floats are left out.
    - Exceptions are values of a small state-and-error monad; the
      subprocess is a record of the outcomes of the calls made on it. *)

From Stdlib Require Import String Ascii.
From Stdlib Require Import List NArith ZArith Lia Bool Permutation.
From Stdlib Require Import DecimalN DecimalZ DecimalFacts.
Import ListNotations.

Local Open Scope N_scope.
Local Open Scope list_scope.

(* ================================================================== *)
(** ** Text *)

Module Text.

(** A Python [str]: its code points in order. *)
Definition str := list N.

(** An ASCII literal as a [str]. *)
Definition lit (s : string) : str :=
  map N_of_ascii (list_ascii_of_string s).

(** [s.startswith(p)] *)
Fixpoint startswith (p s : str) : bool :=
  match p, s with
  | [], _ => true
  | _ :: _, [] => false
  | a :: p', b :: s' => (a =? b) && startswith p' s'
  end.

(** [p in s] for two strings: [p] occurs in [s] as a contiguous run. *)
Fixpoint contains (p s : str) : bool :=
  startswith p s ||
  match s with
  | [] => false
  | _ :: s' => contains p s'
  end.

(** [str.lower()] on one code point.  Only the ASCII letters are mapped:
    outside ASCII, lowering yields ASCII letters for U+0130 (i) and
    U+212A (k) alone, none of them a letter of the markers the probe
    looks for (d f g m n o t u), so for the classifier every other code
    point is an opaque character. *)
Definition lower_cp (c : N) : N :=
  if (65 <=? c) && (c <=? 90) then c + 32 else c.

Definition lower (s : str) : str := map lower_cp s.

(** [s[:n]] *)
Definition slice_to (n : nat) (s : str) : str := firstn n s.

(** [a == b] *)
Fixpoint str_eqb (a b : str) : bool :=
  match a, b with
  | [], [] => true
  | x :: a', y :: b' => (x =? y) && str_eqb a' b'
  | _, _ => false
  end.

End Text.
Import Text.

(* ================================================================== *)
(** ** Result classifier

    The [if] / [elif] / [else] chain at the end of the [try] block of
    [test_workspace_recognition], applied to the captured [stderr]. *)

Module Classifier.

Inductive verdict := Recognized | NotRecognized | Inconclusive.

Definition found_marker : str := lit "go.mod".
Definition no_manifest_marker : str := lit "no go.mod".
Definition not_found_marker : str := lit "not found".

Definition classify (stderr : str) : verdict :=
  if contains found_marker (lower stderr) then Recognized
  else if contains no_manifest_marker (lower stderr)
          || contains not_found_marker (lower stderr) then NotRecognized
  else Inconclusive.

(** The line printed for each verdict. *)
Definition verdict_line (v : verdict) : str :=
  match v with
  | Recognized => 9989 :: lit " gopls found go.mod - workspace recognized"
  | NotRecognized =>
      10060 :: lit " gopls could not find go.mod - workspace NOT recognized"
  | Inconclusive => lit "? Unclear result - manual analysis needed"
  end.

End Classifier.
Import Classifier.

(* ================================================================== *)
(** ** JSON text: [json.dumps] with its default arguments

    [ensure_ascii=True], separators [", "] and [": "], no indentation,
    keys in insertion order. *)

Module Json.

(** The Python objects the codec serialises. *)
Unset Elimination Schemes.
Inductive value :=
| PyNone
| PyBool (b : bool)
| PyInt (z : Z)
| PyStr (s : str)
| PyList (l : list value)
| PyDict (d : list (str * value)).
Set Elimination Schemes.

Definition dict := list (str * value).

(** [d.get(k)] *)
Fixpoint dict_get (k : str) (d : dict) : option value :=
  match d with
  | [] => None
  | (k', v) :: d' => if str_eqb k k' then Some v else dict_get k d'
  end.

(** [d[k] = v]: an existing key keeps its place, a new key goes last. *)
Fixpoint dict_set (k : str) (v : value) (d : dict) : dict :=
  match d with
  | [] => [(k, v)]
  | (k', v') :: d' =>
      if str_eqb k k' then (k', v) :: d' else (k', v') :: dict_set k v d'
  end.

Definition keys (d : dict) : list str := map fst d.

(** [v.get(k)] on an object that may be a [dict]. *)
Definition field (k : str) (v : value) : option value :=
  match v with
  | PyDict d => dict_get k d
  | _ => None
  end.

(** [sep.join(l)] *)
Fixpoint join (sep : str) (l : list str) : str :=
  match l with
  | [] => []
  | x :: xs =>
      match xs with
      | [] => x
      | _ :: _ => x ++ sep ++ join sep xs
      end
  end.

(** Decimal digits, most significant first. *)
Fixpoint uint_str (u : Decimal.uint) : str :=
  match u with
  | Decimal.Nil => []
  | Decimal.D0 u => 48 :: uint_str u
  | Decimal.D1 u => 49 :: uint_str u
  | Decimal.D2 u => 50 :: uint_str u
  | Decimal.D3 u => 51 :: uint_str u
  | Decimal.D4 u => 52 :: uint_str u
  | Decimal.D5 u => 53 :: uint_str u
  | Decimal.D6 u => 54 :: uint_str u
  | Decimal.D7 u => 55 :: uint_str u
  | Decimal.D8 u => 56 :: uint_str u
  | Decimal.D9 u => 57 :: uint_str u
  end.

(** [str(n)] for an [int]. *)
Definition repr_int (z : Z) : str :=
  match Z.to_int z with
  | Decimal.Pos u => uint_str u
  | Decimal.Neg u => 45 :: uint_str u
  end.

(** [str(len(s))] *)
Definition repr_len (n : nat) : str := uint_str (N.to_uint (N.of_nat n)).

Definition hex_digit (d : N) : N := if d <? 10 then 48 + d else 87 + d.

(** ['{0:04x}'.format(n)] for [n] below [0x10000]. *)
Definition hex4 (n : N) : str :=
  [hex_digit (n / 4096 mod 16); hex_digit (n / 256 mod 16);
   hex_digit (n / 16 mod 16); hex_digit (n mod 16)].

Definition backslash_u : str := [92; 117].

(** The replacement of one code point in [encode_basestring_ascii]:
    the short escapes of [ESCAPE_DCT], the printable ASCII range as it
    is, and a [\uXXXX] escape (a surrogate pair above the basic plane)
    for everything else. *)
Definition escape_cp (c : N) : str :=
  if c =? 34 then [92; 34]
  else if c =? 92 then [92; 92]
  else if c =? 10 then [92; 110]
  else if c =? 13 then [92; 114]
  else if c =? 9 then [92; 116]
  else if c =? 8 then [92; 98]
  else if c =? 12 then [92; 102]
  else if (32 <=? c) && (c <=? 126) then [c]
  else if c <? 65536 then backslash_u ++ hex4 c
  else
    let n := c - 65536 in
    let s1 := N.lor 55296 (N.land (N.shiftr n 10) 1023) in
    let s2 := N.lor 56320 (N.land n 1023) in
    backslash_u ++ hex4 s1 ++ backslash_u ++ hex4 s2.

Definition encode_basestring_ascii (s : str) : str :=
  34 :: flat_map escape_cp s ++ [34].

Definition item_separator : str := lit ", ".
Definition key_separator : str := lit ": ".

Fixpoint dumps (v : value) : str :=
  match v with
  | PyNone => lit "null"
  | PyBool true => lit "true"
  | PyBool false => lit "false"
  | PyInt z => repr_int z
  | PyStr s => encode_basestring_ascii s
  | PyList l => 91 :: join item_separator (map dumps l) ++ [93]
  | PyDict d =>
      123 :: join item_separator
               (map (fun kv => encode_basestring_ascii (fst kv)
                               ++ key_separator ++ dumps (snd kv)) d)
          ++ [125]
  end.

(** *** The receiving side: [json.loads]

    The probe never decodes; this is the decoder a receiver of the frame
    runs, after the scanner of Python's [json] module.  Numbers with a
    fraction or an exponent, [NaN] and [Infinity] are rejected, the model
    having no floats. *)

Definition is_ws (c : N) : bool :=
  (c =? 32) || (c =? 9) || (c =? 10) || (c =? 13).

Fixpoint skip_ws (s : str) : str :=
  match s with
  | [] => []
  | c :: s' => if is_ws c then skip_ws s' else s
  end.

Definition is_digit (c : N) : bool := (48 <=? c) && (c <=? 57).

Definition digit_cons (c : N) (u : Decimal.uint) : Decimal.uint :=
  match c - 48 with
  | 0 => Decimal.D0 u
  | 1 => Decimal.D1 u
  | 2 => Decimal.D2 u
  | 3 => Decimal.D3 u
  | 4 => Decimal.D4 u
  | 5 => Decimal.D5 u
  | 6 => Decimal.D6 u
  | 7 => Decimal.D7 u
  | 8 => Decimal.D8 u
  | _ => Decimal.D9 u
  end.

(** The longest run of digits at the head of [s], and what follows. *)
Fixpoint scan_digits (s : str) : Decimal.uint * str :=
  match s with
  | [] => (Decimal.Nil, [])
  | c :: s' =>
      if is_digit c
      then let (u, r) := scan_digits s' in (digit_cons c u, r)
      else (Decimal.Nil, s)
  end.

(** The integer part of [NUMBER_RE]: a lone [0], or a nonzero digit and
    then digits. *)
Definition scan_natural (s : str) : option (Decimal.uint * str) :=
  match s with
  | [] => None
  | c :: s' =>
      if c =? 48 then Some (Decimal.D0 Decimal.Nil, s')
      else if is_digit c then Some (scan_digits s)
      else None
  end.

Definition float_follows (s : str) : bool :=
  match s with
  | [] => false
  | c :: _ => (c =? 46) || (c =? 101) || (c =? 69)
  end.

Definition starts_with_digit (r : str) : bool :=
  match r with
  | [] => false
  | c :: _ => is_digit c
  end.

(** A text after which a number ends: no digit, no fraction, no exponent. *)
Definition ends_number (r : str) : bool :=
  negb (starts_with_digit r) && negb (float_follows r).

Definition scan_number (s : str) : option (value * str) :=
  let signed :=
    match s with
    | [] => None
    | c :: s' =>
        if c =? 45
        then match scan_natural s' with
             | Some (u, r) => Some (Decimal.Neg u, r)
             | None => None
             end
        else match scan_natural s with
             | Some (u, r) => Some (Decimal.Pos u, r)
             | None => None
             end
    end in
  match signed with
  | Some (i, r) =>
      if float_follows r then None else Some (PyInt (Z.of_int i), r)
  | None => None
  end.

Definition unhex (c : N) : option N :=
  if (48 <=? c) && (c <=? 57) then Some (c - 48)
  else if (97 <=? c) && (c <=? 102) then Some (c - 87)
  else if (65 <=? c) && (c <=? 70) then Some (c - 55)
  else None.

(** [_decode_uXXXX] on four characters. *)
Definition decode_hex4 (a b c d : N) : option N :=
  match unhex a, unhex b, unhex c, unhex d with
  | Some x, Some y, Some z, Some w => Some (4096 * x + 256 * y + 16 * z + w)
  | _, _, _, _ => None
  end.

(** The [BACKSLASH] table. *)
Definition unescape (c : N) : option N :=
  if c =? 34 then Some 34
  else if c =? 92 then Some 92
  else if c =? 47 then Some 47
  else if c =? 98 then Some 8
  else if c =? 102 then Some 12
  else if c =? 110 then Some 10
  else if c =? 114 then Some 13
  else if c =? 116 then Some 9
  else None.

Definition is_high_surrogate (c : N) : bool := (55296 <=? c) && (c <=? 56319).
Definition is_low_surrogate (c : N) : bool := (56320 <=? c) && (c <=? 57343).

Definition join_surrogates (hi lo : N) : N :=
  65536 + N.lor (N.shiftl (hi - 55296) 10) (lo - 56320).

Definition cons_char (c : N) (r : option (str * str)) : option (str * str) :=
  match r with
  | Some (t, rest) => Some (c :: t, rest)
  | None => None
  end.

(** [scanstring] in strict mode, started after the opening quote: the
    decoded string and the text after the closing quote. *)
Fixpoint scanstring (s : str) : option (str * str) :=
  match s with
  | [] => None
  | c :: s1 =>
    if c =? 34 then Some ([], s1)
    else if c =? 92 then
      match s1 with
      | [] => None
      | e :: s2 =>
        if e =? 117 then
          match s2 with
          | a :: b :: c' :: d :: s3 =>
            match decode_hex4 a b c' d with
            | None => None
            | Some uni =>
              if is_high_surrogate uni then
                match s3 with
                | bs :: lu :: h1 :: h2 :: h3 :: h4 :: s4 =>
                  if (bs =? 92) && (lu =? 117) then
                    match decode_hex4 h1 h2 h3 h4 with
                    | None => None
                    | Some uni2 =>
                      if is_low_surrogate uni2
                      then cons_char (join_surrogates uni uni2)
                                     (scanstring s4)
                      else cons_char uni (scanstring s3)
                    end
                  else cons_char uni (scanstring s3)
                | _ => cons_char uni (scanstring s3)
                end
              else cons_char uni (scanstring s3)
            end
          | _ => None
          end
        else
          match unescape e with
          | Some ch => cons_char ch (scanstring s2)
          | None => None
          end
      end
    else if c <? 32 then None
    else cons_char c (scanstring s1)
  end.

(** A character that can begin a value: no white space, no closing
    bracket or brace. *)
Definition starts_value (c : N) : bool :=
  negb (is_ws c) && negb (c =? 93) && negb (c =? 125).

(** [dict(pairs)]: a key met again takes the later value. *)
Definition dict_of_pairs (ps : list (str * value)) : dict :=
  fold_left (fun d kv => dict_set (fst kv) (snd kv) d) ps [].

(** [scan_once] with [JSONArray] and [JSONObject].  The recursion is on
    [fuel]; [loads] gives it the length of the text. *)
Fixpoint scan_once (fuel : nat) (s : str) : option (value * str) :=
  match fuel with
  | O => None
  | S f =>
    match s with
    | [] => None
    | c :: s1 =>
      if c =? 34 then
        match scanstring s1 with
        | Some (t, r) => Some (PyStr t, r)
        | None => None
        end
      else if c =? 123 then
        match skip_ws s1 with
        | [] => None
        | c2 :: s2 =>
          if c2 =? 125 then Some (PyDict [], s2)
          else match scan_members f (c2 :: s2) with
               | Some (ps, r) => Some (PyDict (dict_of_pairs ps), r)
               | None => None
               end
        end
      else if c =? 91 then
        match skip_ws s1 with
        | [] => None
        | c2 :: s2 =>
          if c2 =? 93 then Some (PyList [], s2)
          else match scan_items f (c2 :: s2) with
               | Some (vs, r) => Some (PyList vs, r)
               | None => None
               end
        end
      else if startswith (lit "null") s then Some (PyNone, skipn 4 s)
      else if startswith (lit "true") s then Some (PyBool true, skipn 4 s)
      else if startswith (lit "false") s then Some (PyBool false, skipn 5 s)
      else scan_number s
    end
  end

with scan_items (fuel : nat) (s : str) : option (list value * str) :=
  match fuel with
  | O => None
  | S f =>
    match scan_once f s with
    | None => None
    | Some (v, r) =>
      match skip_ws r with
      | [] => None
      | c :: r2 =>
        if c =? 93 then Some ([v], r2)
        else if c =? 44 then
          match scan_items f (skip_ws r2) with
          | Some (vs, r3) => Some (v :: vs, r3)
          | None => None
          end
        else None
      end
    end
  end

with scan_members (fuel : nat) (s : str) : option (list (str * value) * str) :=
  match fuel with
  | O => None
  | S f =>
    match s with
    | [] => None
    | q :: s1 =>
      if q =? 34 then
        match scanstring s1 with
        | None => None
        | Some (k, r) =>
          match skip_ws r with
          | [] => None
          | c :: r2 =>
            if c =? 58 then
              match scan_once f (skip_ws r2) with
              | None => None
              | Some (v, r3) =>
                match skip_ws r3 with
                | [] => None
                | c3 :: r4 =>
                  if c3 =? 125 then Some ([(k, v)], r4)
                  else if c3 =? 44 then
                    match scan_members f (skip_ws r4) with
                    | Some (ps, r5) => Some ((k, v) :: ps, r5)
                    | None => None
                    end
                  else None
                end
              end
            else None
          end
        end
      else None
    end
  end.

(** [json.loads(s)]: one value, white space around it, nothing else. *)
Definition loads (s : str) : option value :=
  match scan_once (S (List.length s)) (skip_ws s) with
  | Some (v, r) =>
      match skip_ws r with
      | [] => Some v
      | _ :: _ => None
      end
  | None => None
  end.

(** *** Well-formed objects

    A [str] holds code points, below [0x110000].  [dumps] writes a high
    surrogate directly followed by a low surrogate like the one character
    the pair encodes, so a string is read back as itself only when it has
    no such pair.  Text, whose code points are scalar values, has no
    surrogate at all.  A [dict] has no key twice. *)

Definition is_code_point (c : N) : bool := c <? 1114112.

Fixpoint no_surrogate_pair (s : str) : bool :=
  match s with
  | [] => true
  | c :: s' =>
      match s' with
      | [] => true
      | c' :: _ =>
          negb (is_high_surrogate c && is_low_surrogate c')
          && no_surrogate_pair s'
      end
  end.

Definition wf_str (s : str) : bool :=
  forallb is_code_point s && no_surrogate_pair s.

Definition scalar_cp (c : N) : bool :=
  (c <? 55296) || ((57343 <? c) && (c <? 1114112)).

(** Unicode text: what UTF-8 can encode. *)
Definition is_text (s : str) : bool := forallb scalar_cp s.

(** The text [t] begins with the [\uXXXX] escape of a low surrogate (or
    with a [\u] that no four hexadecimal digits follow). *)
Definition low_escape_follows (t : str) : bool :=
  match t with
  | bs :: lu :: h1 :: h2 :: h3 :: h4 :: _ =>
      (bs =? 92) && (lu =? 117)
      && match decode_hex4 h1 h2 h3 h4 with
         | Some u => is_low_surrogate u
         | None => true
         end
  | _ => false
  end.

Fixpoint distinct (l : list str) : bool :=
  match l with
  | [] => true
  | k :: l' => negb (existsb (str_eqb k) l') && distinct l'
  end.

Fixpoint wf_value (v : value) : bool :=
  match v with
  | PyNone | PyBool _ | PyInt _ => true
  | PyStr s => wf_str s
  | PyList l => forallb wf_value l
  | PyDict d =>
      forallb (fun kv => wf_str (fst kv) && wf_value (snd kv)) d
      && distinct (map fst d)
  end.

(** The depth of calls [scan_once] makes to read back [dumps v]. *)
Fixpoint scan_depth (v : value) : nat :=
  match v with
  | PyList l => S (fold_right (fun x n => S (Nat.max (scan_depth x) n)) 0%nat l)
  | PyDict d =>
      S (fold_right (fun kv n => S (Nat.max (scan_depth (snd kv)) n)) 0%nat d)
  | _ => 1%nat
  end.

Definition items_depth (l : list value) : nat :=
  fold_right (fun x n => S (Nat.max (scan_depth x) n)) 0%nat l.

Definition members_depth (d : dict) : nat :=
  fold_right (fun kv n => S (Nat.max (scan_depth (snd kv)) n)) 0%nat d.

(** The text of the members of a list and of a dictionary. *)
Definition member_text (kv : str * value) : str :=
  encode_basestring_ascii (fst kv) ++ key_separator ++ dumps (snd kv).

Definition items_text (l : list value) : str :=
  join item_separator (map dumps l).

Definition members_text (d : dict) : str :=
  join item_separator (map member_text d).

(** [scan_once] reads [v] back from [dumps v], whatever follows. *)
Definition reads_back (v : value) : Prop :=
  wf_value v = true ->
  forall fuel r,
    (scan_depth v <= fuel)%nat ->
    ends_number r = true ->
    scan_once fuel (dumps v ++ r) = Some (v, r).

(** [s] is ASCII text. *)
Definition is_ascii (s : str) : bool := forallb (fun c => c <? 128) s.

End Json.
Import Json.

(* ================================================================== *)
(** ** Message codec: [create_lsp_message] *)

Module Codec.

Definition crlf_crlf : str := [13; 10; 13; 10].
Definition header_name : str := lit "Content-Length: ".

(** The [msg] dictionary, after the optional [msg["id"] = id]. *)
Definition build_message (method : str) (params id : value) : value :=
  let msg := [(lit "jsonrpc", PyStr (lit "2.0"));
              (lit "method", PyStr method);
              (lit "params", params)] in
  match id with
  | PyNone => PyDict msg
  | _ => PyDict (dict_set (lit "id") id msg)
  end.

(** [f"Content-Length: {len(content)}\r\n\r\n{content}"] *)
Definition frame (content : str) : str :=
  header_name ++ repr_len (List.length content) ++ crlf_crlf ++ content.

Definition create_lsp_message (method : str) (params id : value) : str :=
  let content := dumps (build_message method params id) in
  frame content.

End Codec.
Import Codec.

(* ================================================================== *)
(** ** The wire: UTF-8 bytes and the reader of a frame *)

Module Wire.

Definition bytes := list N.

Definition utf8_cp (c : N) : option bytes :=
  if c <? 128 then Some [c]
  else if c <? 2048 then
    Some [N.lor 192 (N.shiftr c 6); N.lor 128 (N.land c 63)]
  else if c <? 65536 then
    if (55296 <=? c) && (c <=? 57343) then None
    else Some [N.lor 224 (N.shiftr c 12);
               N.lor 128 (N.land (N.shiftr c 6) 63);
               N.lor 128 (N.land c 63)]
  else if c <? 1114112 then
    Some [N.lor 240 (N.shiftr c 18);
          N.lor 128 (N.land (N.shiftr c 12) 63);
          N.lor 128 (N.land (N.shiftr c 6) 63);
          N.lor 128 (N.land c 63)]
  else None.

(** [s.encode("utf-8")]; [None] stands for [UnicodeEncodeError]. *)
Fixpoint utf8_encode (s : str) : option bytes :=
  match s with
  | [] => Some []
  | c :: s' =>
      match utf8_cp c, utf8_encode s' with
      | Some b, Some bs => Some (b ++ bs)
      | _, _ => None
      end
  end.

Definition is_cont (b : N) : bool := (128 <=? b) && (b <=? 191).

Definition cons_cp (c : N) (r : option str) : option str :=
  match r with
  | Some t => Some (c :: t)
  | None => None
  end.

(** [b.decode("utf-8")], strict. *)
Fixpoint utf8_decode (b : bytes) : option str :=
  match b with
  | [] => Some []
  | b0 :: r0 =>
    if b0 <? 128 then cons_cp b0 (utf8_decode r0)
    else if (194 <=? b0) && (b0 <=? 223) then
      match r0 with
      | b1 :: r1 =>
        if is_cont b1
        then cons_cp (64 * (b0 - 192) + (b1 - 128)) (utf8_decode r1)
        else None
      | _ => None
      end
    else if (224 <=? b0) && (b0 <=? 239) then
      match r0 with
      | b1 :: b2 :: r2 =>
        let c := 4096 * (b0 - 224) + 64 * (b1 - 128) + (b2 - 128) in
        if is_cont b1 && is_cont b2 && (2048 <=? c)
           && negb ((55296 <=? c) && (c <=? 57343))
        then cons_cp c (utf8_decode r2)
        else None
      | _ => None
      end
    else if (240 <=? b0) && (b0 <=? 244) then
      match r0 with
      | b1 :: b2 :: b3 :: r3 =>
        let c := 262144 * (b0 - 240) + 4096 * (b1 - 128)
                 + 64 * (b2 - 128) + (b3 - 128) in
        if is_cont b1 && is_cont b2 && is_cont b3
           && (65536 <=? c) && (c <? 1114112)
        then cons_cp c (utf8_decode r3)
        else None
      | _ => None
      end
    else None
  end.

(** The header of a frame: the declared length and the bytes after the
    blank line. *)
Definition read_header (b : bytes) : option (nat * bytes) :=
  if startswith header_name b then
    match scan_digits (skipn (List.length header_name) b) with
    | (Decimal.Nil, _) => None
    | (u, r) =>
        if startswith crlf_crlf r
        then Some (N.to_nat (N.of_uint u), skipn 4 r)
        else None
    end
  else None.

(** The receiver: read the header, take exactly the declared number of
    bytes, decode them as UTF-8 and as JSON. *)
Definition read_message (b : bytes) : option value :=
  match read_header b with
  | None => None
  | Some (n, r) =>
      if (n <=? List.length r)%nat then
        match utf8_decode (firstn n r) with
        | Some body => loads body
        | None => None
        end
      else None
  end.

End Wire.
Import Wire.

(* ================================================================== *)
(** ** The probe and the scenario runner

    The subprocess is what the probe cannot control: it is given as the
    outcomes of the calls the probe makes on it.  A run is a computation
    in a state-and-exception monad; the state holds the trace of what the
    run did and the local variable [process]. *)

Module Probe.

Inductive exception_class :=
| FileNotFoundError
| BrokenPipeError
| TimeoutExpired
| ValueError
| UnboundLocalError
| OtherException.

(** An exception object: its class and [str(e)].  Every class above
    derives from [Exception]. *)
Record exception := { exc_class : exception_class; exc_text : str }.

(** One subprocess, as seen from the probe. *)
Record subprocess := {
  (** [subprocess.Popen(cmd, ...)] raises, or returns the process *)
  popen_raises : option exception;
  (** the n-th call on [process.stdin] (write, flush, ..., close) raises *)
  stdin_raises : nat -> option exception;
  (** [process.communicate(timeout=5)] raises ([TimeoutExpired]; also
      [ValueError] where the library flushes the [stdin] the probe has
      already closed), or returns the two texts *)
  communicate_result : exception + (str * str);
  (** [process.poll()] in the [finally] clause: the exit code, if any *)
  poll_result : option Z
}.

Inductive event :=
| Print (line : str)
| Spawn (argv : list str)
| Write (data : str)
| Flush
| Close
| Sleep (milliseconds : N)
| Communicate (timeout_seconds : N)
| Terminate.

Record state := {
  trace : list event;
  process : option subprocess;
  stdin_calls : nat
}.

Inductive result (A : Type) :=
| Ok (a : A)
| Raise (e : exception).
Arguments Ok {A} a.
Arguments Raise {A} e.

Definition M (A : Type) : Type := state -> result A * state.

Definition ret {A} (a : A) : M A := fun st => (Ok a, st).

Definition bind {A B} (m : M A) (k : A -> M B) : M B :=
  fun st =>
    match m st with
    | (Ok a, st') => k a st'
    | (Raise e, st') => (Raise e, st')
    end.

Definition raise {A} (e : exception) : M A := fun st => (Raise e, st).

Notation "x <- m ;; k" := (bind m (fun x => k))
  (at level 61, m at next level, right associativity).
Notation "m ;; k" := (bind m (fun _ => k))
  (at level 61, right associativity).

(** [try: body  except Exception as e: handler e  finally: final] *)
Definition try_except_finally (body : M unit) (handler : exception -> M unit)
    (final : M unit) : M unit :=
  fun st =>
    match body st with
    | (Ok _, st1) => final st1
    | (Raise e, st1) =>
        match handler e st1 with
        | (Ok _, st2) => final st2
        | (Raise e', st2) =>
            match final st2 with
            | (Ok _, st3) => (Raise e', st3)
            | (Raise e'', st3) => (Raise e'', st3)
            end
        end
    end.

Definition emit (ev : event) : M unit :=
  fun st => (Ok tt, {| trace := trace st ++ [ev];
                       process := process st;
                       stdin_calls := stdin_calls st |}).

Definition print (line : str) : M unit := emit (Print line).
Definition sleep (ms : N) : M unit := emit (Sleep ms).

(** Entering the function: its local [process] is not bound yet. *)
Definition enter : M unit :=
  fun st => (Ok tt, {| trace := trace st; process := None;
                       stdin_calls := 0%nat |}).

(** [process = subprocess.Popen(cmd, ...)] *)
Definition popen (sp : subprocess) (cmd : list str) : M unit :=
  fun st =>
    match popen_raises sp with
    | Some e => (Raise e, st)
    | None => (Ok tt, {| trace := trace st ++ [Spawn cmd];
                         process := Some sp;
                         stdin_calls := 0%nat |})
    end.

(** Reading the local variable [process]. *)
Definition get_process : M subprocess :=
  fun st =>
    match process st with
    | Some sp => (Ok sp, st)
    | None =>
        (Raise {| exc_class := UnboundLocalError;
                  exc_text := lit "cannot access local variable 'process'" |},
         st)
    end.

(** One call on [process.stdin]; it is recorded when it does not raise. *)
Definition stdin_call (ev : event) : M unit :=
  sp <- get_process ;;
  fun st =>
    let st' := {| trace := trace st; process := process st;
                  stdin_calls := S (stdin_calls st) |} in
    match stdin_raises sp (stdin_calls st) with
    | Some e => (Raise e, st')
    | None => emit ev st'
    end.

Definition stdin_write (data : str) : M unit := stdin_call (Write data).
Definition stdin_flush : M unit := stdin_call Flush.
Definition stdin_close : M unit := stdin_call Close.

(** [process.communicate(timeout=5)] *)
Definition communicate (timeout : N) : M (str * str) :=
  sp <- get_process ;;
  emit (Communicate timeout) ;;
  match communicate_result sp with
  | inl e => raise e
  | inr out => ret out
  end.

Definition poll : M (option Z) :=
  sp <- get_process ;;
  ret (poll_result sp).

Definition terminate : M unit :=
  _ <- get_process ;;
  emit Terminate.

Definition nl : str := [10].
Definition tab : str := [9].
Definition quote : str := [34].

Definition cmd : list str :=
  [lit "docker"; lit "exec"; lit "-i"; lit "68ea7ef3dfa8";
   lit "/go/bin/gopls"; lit "serve"].

Definition main_go_text : str :=
  lit "package main" ++ nl ++ nl
  ++ lit "import " ++ quote ++ lit "./calculator" ++ quote ++ nl ++ nl
  ++ lit "func main() {" ++ nl
  ++ tab ++ lit "calc := calculator.NewCalculator()" ++ nl
  ++ tab ++ lit "result := calc.Add(1, 2)" ++ nl
  ++ tab ++ lit "println(result)" ++ nl
  ++ lit "}".

Definition init_params (workspace_uri : str) : value :=
  PyDict [(lit "processId", PyNone);
          (lit "rootUri", PyStr workspace_uri);
          (lit "workspaceFolders",
             PyList [PyDict [(lit "uri", PyStr workspace_uri);
                             (lit "name", PyStr (lit "test"))]]);
          (lit "capabilities", PyDict [])].

Definition didopen_params (workspace_uri : str) : value :=
  PyDict [(lit "textDocument",
             PyDict [(lit "uri", PyStr (workspace_uri ++ lit "/main.go"));
                     (lit "languageId", PyStr (lit "go"));
                     (lit "version", PyInt 1);
                     (lit "text", PyStr main_go_text)])].

Definition init_msg (workspace_uri : str) : str :=
  create_lsp_message (lit "initialize") (init_params workspace_uri) (PyInt 1).

Definition initialized_msg : str :=
  create_lsp_message (lit "initialized") (PyDict []) PyNone.

Definition didopen_msg (workspace_uri : str) : str :=
  create_lsp_message (lit "textDocument/didOpen")
                     (didopen_params workspace_uri) PyNone.

Definition test_workspace_recognition (sp : subprocess)
    (workspace_uri description : str) : M unit :=
  enter ;;
  print (nl ++ lit "=== TESTING: " ++ description ++ lit " ===") ;;
  print (lit "Workspace URI: " ++ workspace_uri) ;;
  let init := init_msg workspace_uri in
  let didopen := didopen_msg workspace_uri in
  try_except_finally
    (popen sp cmd ;;
     stdin_write init ;;
     stdin_flush ;;
     sleep 500 ;;
     let initialized := initialized_msg in
     stdin_write initialized ;;
     stdin_flush ;;
     stdin_write didopen ;;
     stdin_flush ;;
     sleep 1000 ;;
     stdin_close ;;
     out <- communicate 5 ;;
     let (stdout, stderr) := out : str * str in
     print (lit "STDOUT: " ++ slice_to 500 stdout ++ lit "...") ;;
     print (lit "STDERR: " ++ slice_to 500 stderr ++ lit "...") ;;
     print (verdict_line (classify stderr)))
    (fun e => print (lit "Error: " ++ exc_text e))
    (code <- poll ;;
     match code with
     | None => terminate
     | Some _ => ret tt
     end).

Definition host_uri : str :=
  lit "file:///Users/ksoichiro/src/github.com/ksoichiro/container.nvim".
Definition host_description : str :=
  lit "Host path (current behavior - should FAIL)".
Definition container_uri : str := lit "file:///workspace".
Definition container_description : str :=
  lit "Container path (Strategy B - should SUCCEED)".

(** The [__main__] block; [sp1] and [sp2] are the subprocesses the two
    calls of [Popen] would start. *)
Definition main (sp1 sp2 : subprocess) : M unit :=
  print (lit "=== PHASE 0: GOPLS WORKSPACE RECOGNITION TEST ===") ;;
  test_workspace_recognition sp1 host_uri host_description ;;
  test_workspace_recognition sp2 container_uri container_description ;;
  print (nl ++ lit "=== ANALYSIS COMPLETE ===") ;;
  print (lit "Check the results above to confirm our hypothesis:") ;;
  print (lit "- Host paths should fail to find go.mod") ;;
  print (lit "- Container paths should successfully find go.mod").

Definition start : state :=
  {| trace := []; process := None; stdin_calls := 0%nat |}.

(** What a run printed, and what it wrote to the subprocess. *)
Fixpoint printed (t : list event) : list str :=
  match t with
  | [] => []
  | Print line :: t' => line :: printed t'
  | _ :: t' => printed t'
  end.

Fixpoint written (t : list event) : list str :=
  match t with
  | [] => []
  | Write data :: t' => data :: written t'
  | _ :: t' => written t'
  end.

(** The verdict a printed line reports, if it is a verdict line. *)
Definition verdict_of_line (line : str) : option verdict :=
  if str_eqb line (verdict_line Recognized) then Some Recognized
  else if str_eqb line (verdict_line NotRecognized) then Some NotRecognized
  else if str_eqb line (verdict_line Inconclusive) then Some Inconclusive
  else None.

(** The verdicts a run reported, in order. *)
Fixpoint reported (lines : list str) : list verdict :=
  match lines with
  | [] => []
  | line :: lines' =>
      match verdict_of_line line with
      | Some v => v :: reported lines'
      | None => reported lines'
      end
  end.

(** The events of one scenario run on its own. *)
Definition run_trace (sp : subprocess) (workspace_uri description : str)
  : list event :=
  trace (snd (test_workspace_recognition sp workspace_uri description start)).

(** The run reached [communicate] and got the two texts back. *)
Definition captures (sp : subprocess) (stdout stderr : str) : Prop :=
  popen_raises sp = None
  /\ (forall n, (n < 7)%nat -> stdin_raises sp n = None)
  /\ communicate_result sp = inr (stdout, stderr).

(** A subprocess that starts, takes its input and ends with the given
    texts and exit code. *)
Definition well_behaved (stdout stderr : str) (code : option Z) : subprocess :=
  {| popen_raises := None;
     stdin_raises := fun _ => None;
     communicate_result := inr (stdout, stderr);
     poll_result := code |}.

(** [Popen] fails: the executable is not there. *)
Definition not_spawned : subprocess :=
  {| popen_raises :=
       Some {| exc_class := FileNotFoundError;
               exc_text := lit "[Errno 2] No such file or directory: 'docker'" |};
     stdin_raises := fun _ => None;
     communicate_result := inr ([], []);
     poll_result := None |}.

End Probe.
Import Probe.

(* ================================================================== *)
(** ** The shape of frames and of runs *)

Module Shape.

(** Printable ASCII, from the space to the tilde. *)
Definition is_printable (s : str) : bool :=
  forallb (fun c => (32 <=? c) && (c <=? 126)) s.

Definition is_line_break (c : N) : bool := (c =? 13) || (c =? 10).

(** The line breaks of a text, in order. *)
Definition line_breaks (s : str) : str := filter is_line_break s.

(** The [id] entry of a message, if any. *)
Definition id_entry (id : value) : dict :=
  match id with
  | PyNone => []
  | _ => [(lit "id", id)]
  end.

Definition is_print (ev : event) : bool :=
  match ev with
  | Print _ => true
  | _ => false
  end.

(** What a run did to its subprocess: its events without the prints. *)
Definition protocol_events (t : list event) : list event :=
  filter (fun ev => negb (is_print ev)) t.

(** The calls of the [try] block on the subprocess, in program order. *)
Definition script (workspace_uri : str) : list event :=
  [Spawn cmd;
   Write (init_msg workspace_uri); Flush; Sleep 500;
   Write initialized_msg; Flush;
   Write (didopen_msg workspace_uri); Flush; Sleep 1000;
   Close; Communicate 5].

(** The [finally] clause of a run whose process was started. *)
Definition cleanup (sp : subprocess) : list event :=
  match poll_result sp with
  | None => [Terminate]
  | Some _ => []
  end.

Definition header_line (description : str) : str :=
  nl ++ lit "=== TESTING: " ++ description ++ lit " ===".

Definition uri_line (workspace_uri : str) : str :=
  lit "Workspace URI: " ++ workspace_uri.

Definition error_line (e : exception) : str := lit "Error: " ++ exc_text e.

Definition closing_lines : list str :=
  [nl ++ lit "=== ANALYSIS COMPLETE ===";
   lit "Check the results above to confirm our hypothesis:";
   lit "- Host paths should fail to find go.mod";
   lit "- Container paths should successfully find go.mod"].

(** The pipe breaks at the [i]-th call on [stdin]. *)
Definition pipe_closed_at (i : nat) : subprocess :=
  {| popen_raises := None;
     stdin_raises := fun n =>
       if Nat.eqb n i
       then Some {| exc_class := BrokenPipeError;
                    exc_text := lit "[Errno 32] Broken pipe" |}
       else None;
     communicate_result := inr ([], lit "found go.mod");
     poll_result := Some 1%Z |}.

(** The process takes its input and does not end in time. *)
Definition timed_out : subprocess :=
  {| popen_raises := None;
     stdin_raises := fun _ => None;
     communicate_result :=
       inl {| exc_class := TimeoutExpired;
              exc_text := lit "timed out after 5 seconds" |};
     poll_result := None |}.

End Shape.
Import Shape.

(* ================================================================== *)
(** ** The example program: [examples/python-example/main.py]

    The functions are modelled on [int] arguments, as [main] calls them.
    A Python list is an object: the heap maps a reference to the
    elements of the list it names, so that two names of one list and a
    copy of a list differ. *)

Module PythonExample.

(** [sum(numbers)] *)
Definition calculate_sum (numbers : list Z) : Z :=
  fold_left Z.add numbers 0%Z.

Definition ref := nat.
Definition heap := list (list str).

(** [[]] or [l.copy()]: a new list object. *)
Definition alloc (l : list str) (h : heap) : ref * heap :=
  (List.length h, h ++ [l]).


Fixpoint update (r : ref) (f : list str -> list str) (h : heap) : heap :=
  match h with
  | [] => []
  | l :: h' =>
      match r with
      | O => f l :: h'
      | S r' => l :: update r' f h'
      end
  end.

(** [l.append(x)] *)
Definition append (r : ref) (x : str) (h : heap) : heap :=
  update r (fun l => l ++ [x]) h.

(** An instance of [Calculator]: its attribute [history]. *)
Record Calculator := { history : ref }.

(** [Calculator()] *)
Definition init (h : heap) : Calculator * heap :=
  let (r, h') := alloc [] h in ({| history := r |}, h').

(** [f"{a} + {b} = {result}"] *)
Definition entry (a : Z) (op : str) (b result : Z) : str :=
  repr_int a ++ lit " " ++ op ++ lit " " ++ repr_int b
  ++ lit " = " ++ repr_int result.

Definition add (self : Calculator) (a b : Z) (h : heap) : Z * heap :=
  let result := (a + b)%Z in
  (result, append (history self) (entry a (lit "+") b result) h).








End PythonExample.

(* ================================================================== *)
(** ** Letter case

    What it means to change the letter case of a text, stated without
    [lower]: position by position for the ASCII letters, and through
    [str.upper()] where one code point has an upper-case form of several
    code points. *)

Module Casing.

Definition is_ascii_upper (c : N) : bool := (65 <=? c) && (c <=? 90).
Definition is_ascii_lower (c : N) : bool := (97 <=? c) && (c <=? 122).

(** The same code point, or the two cases of one ASCII letter. *)
Definition same_letter (c d : N) : bool :=
  (c =? d)
  || (is_ascii_upper c && (d =? c + 32))
  || (is_ascii_lower c && (c =? d + 32)).

(** [t] is [s] with the case of some of its ASCII letters changed. *)
Fixpoint case_variant (s t : str) : bool :=
  match s, t with
  | [], [] => true
  | c :: s', d :: t' => same_letter c d && case_variant s' t'
  | _, _ => false
  end.

(** [str.upper()] on one code point, for the part of the Unicode case
    tables used here: the ASCII range, where only [a]..[z] change, and
    U+0149, whose upper-case form is the two code points U+02BC U+004E.
    The rest of the tables is not modelled: [None]. *)
Definition upper_cp (c : N) : option str :=
  if c <? 128 then Some [if is_ascii_lower c then c - 32 else c]
  else if c =? 329 then Some [700; 78]
  else None.

(** [s.upper()]: the upper-case forms of the code points of [s], one
    after the other. *)
Fixpoint upper (s : str) : option str :=
  match s with
  | [] => Some []
  | c :: s' =>
      match upper_cp c, upper s' with
      | Some u, Some r => Some (u ++ r)
      | _, _ => None
      end
  end.

End Casing.
Import Casing.

(* ================================================================== *)
(** ** Facts about text *)

Section TextFacts.

Lemma startswith_app (p s : str) : startswith p (p ++ s) = true.
Proof.
  induction p as [|a p IH]; simpl; [reflexivity|].
  now rewrite N.eqb_refl, IH.
Qed.

Lemma startswith_inv (p s : str) :
  startswith p s = true -> exists t, s = p ++ t.
Proof.
  revert s; induction p as [|a p IH]; intros s H.
  - now exists s.
  - destruct s as [|b s]; simpl in H; [discriminate|].
    apply andb_true_iff in H as [Hab Hps].
    apply N.eqb_eq in Hab; subst b.
    destruct (IH _ Hps) as [t ->]. now exists t.
Qed.

Lemma contains_app (p a b : str) : contains p (a ++ p ++ b) = true.
Proof.
  induction a as [|c a IH]; simpl.
  - pose proof (startswith_app p b) as H.
    destruct (p ++ b); simpl; now rewrite H.
  - rewrite IH. apply orb_true_r.
Qed.

Lemma contains_inv (p s : str) :
  contains p s = true -> exists a b, s = a ++ p ++ b.
Proof.
  induction s as [|c s IH]; simpl; intros H.
  - rewrite orb_false_r in H.
    apply startswith_inv in H as [t ->]. now exists [], t.
  - apply orb_true_iff in H as [H|H].
    + apply startswith_inv in H as [t ->]. now exists [], t.
    + destruct (IH H) as (a & b & ->). now exists (c :: a), b.
Qed.

(** The substring test, as a fact about decompositions. *)
Lemma contains_spec (p s : str) :
  contains p s = true <-> exists a b, s = a ++ p ++ b.
Proof.
  split; [apply contains_inv|].
  intros (a & b & ->). apply contains_app.
Qed.

Lemma lower_cp_idem (c : N) : lower_cp (lower_cp c) = lower_cp c.
Proof.
  unfold lower_cp.
  destruct ((65 <=? c) && (c <=? 90)) eqn:E.
  - apply andb_true_iff in E as [E1 E2].
    apply N.leb_le in E1, E2.
    destruct ((65 <=? c + 32) && (c + 32 <=? 90)) eqn:E'; [|reflexivity].
    apply andb_true_iff in E' as [_ E3]. apply N.leb_le in E3. lia.
  - now rewrite E.
Qed.

Lemma lower_idem (s : str) : lower (lower s) = lower s.
Proof.
  unfold lower. rewrite map_map.
  apply map_ext, lower_cp_idem.
Qed.

Lemma lower_app (a b : str) : lower (a ++ b) = lower a ++ lower b.
Proof. apply map_app. Qed.

(** A marker inside a longer marker: every text with ["no go.mod"] has
    ["go.mod"]. *)
Lemma contains_trans (p q s : str) :
  contains p q = true -> contains q s = true -> contains p s = true.
Proof.
  intros Hpq Hqs.
  apply contains_inv in Hpq as (a & b & ->).
  apply contains_inv in Hqs as (c & d & ->).
  replace (c ++ (a ++ p ++ b) ++ d) with ((c ++ a) ++ p ++ (b ++ d)).
  - apply contains_app.
  - now rewrite <- !app_assoc.
Qed.

End TextFacts.

(* ================================================================== *)
(** ** The classifier's properties *)

Section ClassifierProperties.

Lemma classify_recognized_iff (s : str) :
  classify s = Recognized <-> contains found_marker (lower s) = true.
Proof.
  unfold classify.
  destruct (contains found_marker (lower s)); [tauto|].
  destruct (_ || _); split; discriminate.
Qed.

Lemma no_manifest_has_found (t : str) :
  contains no_manifest_marker t = true -> contains found_marker t = true.
Proof. apply contains_trans. reflexivity. Qed.

(** C3: a text that holds the found marker and also a not-found marker
    (case-insensitively, anywhere and in any order) is classified as
    recognized. *)
Theorem classify_both_markers_recognized (s : str) :
  contains found_marker (lower s) = true ->
  contains no_manifest_marker (lower s) = true
    \/ contains not_found_marker (lower s) = true ->
  classify s = Recognized.
Proof.
  intros Hfound _. now apply classify_recognized_iff.
Qed.

Lemma classify_both_markers_recognized_witness :
  classify (lit "go.mod: file NOT FOUND") = Recognized
  /\ classify (lit "not found; using Go.Mod at /w") = Recognized.
Proof.
  split; apply classify_both_markers_recognized;
    solve [reflexivity | right; reflexivity].
Defined.

(** The same on decompositions: the found marker wins whatever other
    marker [nf] the text holds, before it or after it. *)
Lemma classify_marker_orders (a b c nf : str) :
  classify (a ++ found_marker ++ b ++ nf ++ c) = Recognized
  /\ classify (a ++ nf ++ b ++ found_marker ++ c) = Recognized.
Proof.
  split; apply classify_recognized_iff.
  - rewrite !lower_app. apply contains_app.
  - replace (a ++ nf ++ b ++ found_marker ++ c)
      with ((a ++ nf ++ b) ++ found_marker ++ c)
      by now rewrite <- !app_assoc.
    rewrite lower_app, (lower_app found_marker). apply contains_app.
Qed.

(** C5: the classifier is a total function whose value is one of the
    three verdicts, for every text, the empty one included (for which it
    is inconclusive). *)
Theorem classify_total (s : str) :
  (classify s = Recognized \/ classify s = NotRecognized
   \/ classify s = Inconclusive)
  /\ (exists! v, classify s = v)
  /\ classify [] = Inconclusive.
Proof.
  split; [|split].
  - destruct (classify s); auto.
  - exists (classify s). split; [reflexivity | auto].
  - reflexivity.
Qed.

Lemma same_letter_lower (c d : N) :
  same_letter c d = true -> lower_cp c = lower_cp d.
Proof.
  unfold same_letter, is_ascii_upper, is_ascii_lower, lower_cp.
  intros H.
  apply orb_true_iff in H as [H|H];
    [apply orb_true_iff in H as [H|H]|].
  - apply N.eqb_eq in H. now subst d.
  - apply andb_true_iff in H as [Hc Hd].
    apply N.eqb_eq in Hd; subst d. rewrite Hc.
    apply andb_true_iff in Hc as [H1 H2]. apply N.leb_le in H1, H2.
    destruct ((65 <=? c + 32) && (c + 32 <=? 90)) eqn:E; [|reflexivity].
    apply andb_true_iff in E as [_ E]. apply N.leb_le in E. lia.
  - apply andb_true_iff in H as [Hc Hd].
    apply N.eqb_eq in Hd; subst c.
    apply andb_true_iff in Hc as [H1 H2]. apply N.leb_le in H1, H2.
    replace ((65 <=? d + 32) && (d + 32 <=? 90)) with false
      by (symmetry; apply andb_false_iff; right; apply N.leb_gt; lia).
    replace ((65 <=? d) && (d <=? 90)) with true
      by (symmetry; apply andb_true_iff; split; apply N.leb_le; lia).
    reflexivity.
Qed.

Lemma case_variant_lower (s t : str) :
  case_variant s t = true -> lower s = lower t.
Proof.
  revert t; induction s as [|c s IH]; intros [|d t] H;
    simpl in H; try discriminate; [reflexivity|].
  apply andb_true_iff in H as [Hcd Hst].
  simpl. now rewrite (same_letter_lower c d Hcd), (IH t Hst).
Qed.

(** On ASCII text [str.upper()] changes the case of letters and nothing
    else. *)
Lemma upper_ascii_case_variant (s : str) :
  is_ascii s = true ->
  exists u, upper s = Some u /\ case_variant s u = true.
Proof.
  induction s as [|c s IH]; intros H.
  - now exists [].
  - simpl in H. apply andb_true_iff in H as [Hc Hs].
    destruct (IH Hs) as (u & Hu & Hv).
    exists ((if is_ascii_lower c then c - 32 else c) :: u).
    simpl. unfold upper_cp. rewrite Hc, Hu. split; [reflexivity|].
    rewrite Hv, andb_true_r.
    unfold same_letter. destruct (is_ascii_lower c) eqn:El.
    + unfold is_ascii_lower in El.
      apply andb_true_iff in El as [H1 H2]. apply N.leb_le in H1, H2.
      replace (c =? c - 32 + 32) with true
        by (symmetry; apply N.eqb_eq; lia).
      now rewrite andb_true_r, orb_true_r.
    + now rewrite N.eqb_refl.
Qed.

(** C9: the verdict of a text is the verdict of its lowercase form; two
    texts with the same lowercase form get the same verdict, so the
    verdict is unchanged by changing the case of ASCII letters of the
    text, and the upper-case form of an ASCII text has the verdict of
    the text.  Changes of case outside ASCII are left out: the upper-case
    form of one code point can bring ASCII letters into the text. *)
Theorem classify_case_insensitive (s : str) :
  classify s = classify (lower s)
  /\ (forall t, lower t = lower s -> classify t = classify s)
  /\ (forall t, case_variant s t = true -> classify t = classify s)
  /\ (is_ascii s = true ->
      exists u, upper s = Some u /\ classify u = classify s).
Proof.
  assert (Hsame : forall t, lower t = lower s -> classify t = classify s)
    by (intros t Ht; unfold classify; now rewrite Ht).
  split; [|split; [exact Hsame | split]].
  - unfold classify. now rewrite lower_idem.
  - intros t Ht. apply Hsame. symmetry. now apply case_variant_lower.
  - intros Ha.
    destruct (upper_ascii_case_variant s Ha) as (u & Hu & Hv).
    exists u. split; [exact Hu|].
    apply Hsame. symmetry. now apply case_variant_lower.
Qed.

Lemma classify_case_insensitive_witness :
  classify (lit "GO.MOD: Loaded") = Recognized
  /\ classify (lit "Workspace NOT Found") = NotRecognized
  /\ exists u,
       upper (lit "workspace not found") = Some u
       /\ classify u = NotRecognized.
Proof.
  split; [|split].
  - rewrite (proj1 (proj2 (proj2
               (classify_case_insensitive (lit "go.mod: loaded"))))
               (lit "GO.MOD: Loaded") eq_refl).
    reflexivity.
  - rewrite (proj1 (proj2 (proj2
               (classify_case_insensitive (lit "workspace not found"))))
               (lit "Workspace NOT Found") eq_refl).
    reflexivity.
  - destruct (proj2 (proj2 (proj2
               (classify_case_insensitive (lit "workspace not found"))))
               eq_refl) as (u & Hu & Hc).
    exists u. split; [exact Hu | now rewrite Hc].
Defined.

(** C9, where it fails: changing the letter case of any character does
    not keep the verdict.  U+0149 is a lowercase letter whose upper-case
    form is U+02BC followed by [N]; the text of that letter followed by
    [ot found] has no marker and is inconclusive, its upper-case form
    reads [NOT FOUND] after the modifier letter and is not recognized. *)
Lemma upper_case_form_changes_verdict :
  upper (329 :: lit "ot found") = Some (700 :: lit "NOT FOUND")
  /\ classify (329 :: lit "ot found") = Inconclusive
  /\ classify (700 :: lit "NOT FOUND") = NotRecognized
  /\ lower (700 :: lit "NOT FOUND") <> lower (329 :: lit "ot found").
Proof.
  repeat split; try reflexivity.
  vm_compute. discriminate.
Qed.

(** C10: the verdict not-recognized is given exactly to the texts that
    hold ["not found"] and do not hold ["go.mod"] (both in lowercase
    form); a text that holds ["no go.mod"] holds ["go.mod"] and is
    recognized. *)
Theorem not_recognized_only_by_not_found (s : str) :
  (classify s = NotRecognized <->
     contains (lit "not found") (lower s) = true
     /\ contains (lit "go.mod") (lower s) = false)
  /\ (contains (lit "no go.mod") (lower s) = true ->
        contains (lit "go.mod") (lower s) = true
        /\ classify s = Recognized).
Proof.
  split.
  - unfold classify.
    change found_marker with (lit "go.mod").
    change not_found_marker with (lit "not found").
    destruct (contains (lit "go.mod") (lower s)) eqn:Hf.
    + split; [discriminate | intros [_ H]; discriminate].
    + destruct (contains no_manifest_marker (lower s)) eqn:Hn.
      * apply no_manifest_has_found in Hn.
        change found_marker with (lit "go.mod") in Hn. congruence.
      * simpl. destruct (contains (lit "not found") (lower s)).
        -- tauto.
        -- split; [discriminate | intros [H _]; discriminate].
  - intros Hn.
    apply (no_manifest_has_found (lower s)) in Hn.
    split; [exact Hn | now apply classify_recognized_iff].
Qed.

Lemma not_recognized_only_by_not_found_witness :
  classify (lit "workspace Not Found") = NotRecognized
  /\ classify (lit "No go.mod here") = Recognized.
Proof.
  split.
  - apply (proj1 (not_recognized_only_by_not_found _)). split; reflexivity.
  - apply (proj2 (not_recognized_only_by_not_found _)). reflexivity.
Defined.

End ClassifierProperties.

(* ================================================================== *)
(** ** Codec: the fields of a message *)

Section CodecFields.

(** C6: the message has the fields jsonrpc (["2.0"]), method and params,
    in this order, and a fourth field id exactly when the [id] argument
    is not [None]; this dictionary is what the frame carries. *)
Theorem build_message_fields (method : str) (params id : value) :
  exists d,
    build_message method params id = PyDict d
    /\ keys d = [lit "jsonrpc"; lit "method"; lit "params"]
                ++ match id with PyNone => [] | _ => [lit "id"] end
    /\ dict_get (lit "jsonrpc") d = Some (PyStr (lit "2.0"))
    /\ dict_get (lit "method") d = Some (PyStr method)
    /\ dict_get (lit "params") d = Some params
    /\ dict_get (lit "id") d = match id with PyNone => None | _ => Some id end
    /\ create_lsp_message method params id = frame (dumps (PyDict d)).
Proof.
  unfold create_lsp_message.
  destruct id; eexists; (split; [reflexivity|]); repeat split.
Qed.

End CodecFields.

(* ================================================================== *)
(** ** The probe: what a run does *)

Section ProbeRuns.

#[local] Opaque slice_to lit verdict_line classify.

Ltac unfold_run :=
  unfold run_trace, test_workspace_recognition, try_except_finally,
    stdin_write, stdin_flush, stdin_close, stdin_call, communicate, poll,
    terminate, popen, print, sleep, enter, get_process, emit, bind, ret,
    raise.

(** The events of a run in which no call fails. *)
Lemma run_trace_completed sp uri desc out err :
  popen_raises sp = None ->
  (forall n, (n < 7)%nat -> stdin_raises sp n = None) ->
  communicate_result sp = inr (out, err) ->
  run_trace sp uri desc =
    [Print (nl ++ lit "=== TESTING: " ++ desc ++ lit " ===");
     Print (lit "Workspace URI: " ++ uri);
     Spawn cmd;
     Write (init_msg uri); Flush; Sleep 500;
     Write initialized_msg; Flush;
     Write (didopen_msg uri); Flush; Sleep 1000;
     Close; Communicate 5;
     Print (lit "STDOUT: " ++ slice_to 500 out ++ lit "...");
     Print (lit "STDERR: " ++ slice_to 500 err ++ lit "...");
     Print (verdict_line (classify err))]
    ++ match poll_result sp with None => [Terminate] | Some _ => [] end.
Proof.
  intros Hp Hs Hc.
  unfold run_trace, test_workspace_recognition.
  generalize (init_msg uri) (didopen_msg uri) initialized_msg.
  intros m1 m3 m2.
  destruct sp as [pr sr cr po]; simpl in Hp, Hs, Hc; subst.
  unfold_run; simpl.
  repeat (rewrite Hs by lia; simpl).
  destruct po; reflexivity.
Qed.

(** In every run, whatever fails, the strings written to the subprocess
    are the first few of the three messages, in order. *)
Lemma written_prefix sp uri desc :
  exists k, written (run_trace sp uri desc)
            = firstn k [init_msg uri; initialized_msg; didopen_msg uri].
Proof.
  unfold run_trace, test_workspace_recognition.
  generalize (init_msg uri) (didopen_msg uri) initialized_msg.
  intros m1 m3 m2.
  destruct sp as [pr sr cr po].
  unfold_run; simpl.
  destruct pr; simpl; [exists 0%nat; reflexivity|].
  destruct (sr 0%nat); simpl; [destruct po; exists 0%nat; reflexivity|].
  destruct (sr 1%nat); simpl; [destruct po; exists 1%nat; reflexivity|].
  destruct (sr 2%nat); simpl; [destruct po; exists 1%nat; reflexivity|].
  destruct (sr 3%nat); simpl; [destruct po; exists 2%nat; reflexivity|].
  destruct (sr 4%nat); simpl; [destruct po; exists 2%nat; reflexivity|].
  destruct (sr 5%nat); simpl; [destruct po; exists 3%nat; reflexivity|].
  destruct (sr 6%nat); simpl; [destruct po; exists 3%nat; reflexivity|].
  destruct cr as [e|[out err]]; simpl; destruct po; exists 3%nat; reflexivity.
Qed.

(** When the process starts and takes the three writes and flushes, all
    three messages are written, whatever happens afterwards. *)
Lemma written_all sp uri desc :
  popen_raises sp = None ->
  (forall n, (n < 6)%nat -> stdin_raises sp n = None) ->
  written (run_trace sp uri desc)
  = [init_msg uri; initialized_msg; didopen_msg uri].
Proof.
  intros Hp Hs.
  unfold run_trace, test_workspace_recognition.
  generalize (init_msg uri) (didopen_msg uri) initialized_msg.
  intros m1 m3 m2.
  destruct sp as [pr sr cr po]; simpl in Hp, Hs; subst.
  unfold_run; simpl.
  repeat (rewrite Hs by lia; simpl).
  destruct (sr 6%nat); simpl; [destruct po; reflexivity|].
  destruct cr as [e|[out err]]; simpl; destruct po; reflexivity.
Qed.

(** A failure after [Popen] is caught: the call returns normally. *)
Lemma failure_after_spawn_is_local sp uri desc st :
  popen_raises sp = None ->
  fst (test_workspace_recognition sp uri desc st) = Ok tt.
Proof.
  intros Hp.
  unfold test_workspace_recognition.
  generalize (init_msg uri) (didopen_msg uri) initialized_msg.
  intros m1 m3 m2.
  destruct sp as [pr sr cr po]; simpl in Hp; subst.
  unfold_run; simpl.
  destruct (sr 0%nat); simpl; [destruct po; reflexivity|].
  destruct (sr 1%nat); simpl; [destruct po; reflexivity|].
  destruct (sr 2%nat); simpl; [destruct po; reflexivity|].
  destruct (sr 3%nat); simpl; [destruct po; reflexivity|].
  destruct (sr 4%nat); simpl; [destruct po; reflexivity|].
  destruct (sr 5%nat); simpl; [destruct po; reflexivity|].
  destruct (sr 6%nat); simpl; [destruct po; reflexivity|].
  destruct cr as [e|[out err]]; simpl; destruct po; reflexivity.
Qed.

(** A failure of [Popen] is not: the [finally] clause reads [process],
    which was never bound, and the exception it raises leaves the
    function after the line [Error: ...] was printed. *)
Lemma spawn_failure_escapes sp uri desc st e :
  popen_raises sp = Some e ->
  exists e' st',
    test_workspace_recognition sp uri desc st = (Raise e', st')
    /\ exc_class e' = UnboundLocalError
    /\ trace st' =
         trace st
         ++ [Print (nl ++ lit "=== TESTING: " ++ desc ++ lit " ===");
             Print (lit "Workspace URI: " ++ uri);
             Print (lit "Error: " ++ exc_text e)].
Proof.
  intros Hp.
  unfold test_workspace_recognition.
  generalize (init_msg uri) (didopen_msg uri) initialized_msg.
  intros m1 m3 m2.
  destruct sp as [pr sr cr po]; simpl in Hp; subst.
  unfold_run; simpl.
  do 2 eexists. split; [reflexivity|]. split; [reflexivity|].
  simpl. now rewrite <- !app_assoc.
Qed.

End ProbeRuns.

(* ================================================================== *)
(** ** The probe: messages, verdicts and failures *)

Section ProbeProperties.

(** C7: the probe writes the initialize request, the initialized
    notification and the didOpen notification, in this order.  In every
    run the strings written are the first few of these three; when the
    subprocess is started and takes the writes, they are exactly the
    three.  The first carries id 1 and the workspace locator as [rootUri]
    and as the only workspace folder; the second has no id and empty
    params; the third has no id, version 1 and the locator followed by
    [/main.go] as the document URI. *)
Theorem probe_sends_three_messages (sp : subprocess) (uri desc : str) :
  (exists k, written (run_trace sp uri desc)
             = firstn k [init_msg uri; initialized_msg; didopen_msg uri])
  /\ (popen_raises sp = None ->
      (forall n, (n < 6)%nat -> stdin_raises sp n = None) ->
      written (run_trace sp uri desc)
      = [init_msg uri; initialized_msg; didopen_msg uri])
  /\ (init_msg uri
        = frame (dumps (build_message (lit "initialize") (init_params uri)
                                      (PyInt 1)))
      /\ build_message (lit "initialize") (init_params uri) (PyInt 1)
         = PyDict [(lit "jsonrpc", PyStr (lit "2.0"));
                   (lit "method", PyStr (lit "initialize"));
                   (lit "params", init_params uri);
                   (lit "id", PyInt 1)]
      /\ field (lit "rootUri") (init_params uri) = Some (PyStr uri)
      /\ field (lit "workspaceFolders") (init_params uri)
         = Some (PyList [PyDict [(lit "uri", PyStr uri);
                                 (lit "name", PyStr (lit "test"))]])
      /\ field (lit "capabilities") (init_params uri) = Some (PyDict []))
  /\ (initialized_msg
        = frame (dumps (build_message (lit "initialized") (PyDict []) PyNone))
      /\ build_message (lit "initialized") (PyDict []) PyNone
         = PyDict [(lit "jsonrpc", PyStr (lit "2.0"));
                   (lit "method", PyStr (lit "initialized"));
                   (lit "params", PyDict [])])
  /\ (didopen_msg uri
        = frame (dumps (build_message (lit "textDocument/didOpen")
                                      (didopen_params uri) PyNone))
      /\ build_message (lit "textDocument/didOpen") (didopen_params uri) PyNone
         = PyDict [(lit "jsonrpc", PyStr (lit "2.0"));
                   (lit "method", PyStr (lit "textDocument/didOpen"));
                   (lit "params", didopen_params uri)]
      /\ exists doc,
           field (lit "textDocument") (didopen_params uri) = Some doc
           /\ field (lit "version") doc = Some (PyInt 1)
           /\ field (lit "uri") doc = Some (PyStr (uri ++ lit "/main.go"))).
Proof.
  split; [apply written_prefix|].
  split; [apply written_all|].
  repeat split.
  eexists. repeat split.
Qed.

Lemma probe_sends_three_messages_witness :
  written (run_trace (well_behaved [] (lit "using go.mod at /workspace")
                                   (Some 0%Z))
                     container_uri container_description)
  = [init_msg container_uri; initialized_msg; didopen_msg container_uri].
Proof.
  apply (proj1 (proj2 (probe_sends_three_messages _ _ _)));
    intros; reflexivity.
Defined.

Lemma verdict_of_verdict_line (v : verdict) :
  verdict_of_line (verdict_line v) = Some v.
Proof. destruct v; reflexivity. Qed.

Lemma reported_of_capture sp uri desc out err :
  captures sp out err ->
  reported (printed (run_trace sp uri desc)) = [classify err].
Proof.
  intros (Hp & Hs & Hc).
  rewrite (run_trace_completed sp uri desc out err Hp Hs Hc).
  assert (Hend : forall l, printed (l ++ match poll_result sp with
                                        | None => [Terminate]
                                        | Some _ => []
                                        end) = printed l).
  { induction l as [|[] l IH]; simpl; try (now rewrite IH);
      destruct (poll_result sp); reflexivity. }
  rewrite Hend. cbn [printed reported].
  change (verdict_of_line (nl ++ lit "=== TESTING: " ++ desc ++ lit " ==="))
    with (@None verdict).
  change (verdict_of_line (lit "Workspace URI: " ++ uri)) with (@None verdict).
  change (verdict_of_line (lit "STDOUT: " ++ slice_to 500 out ++ lit "..."))
    with (@None verdict).
  change (verdict_of_line (lit "STDERR: " ++ slice_to 500 err ++ lit "..."))
    with (@None verdict).
  now rewrite verdict_of_verdict_line.
Qed.

(** C8: two runs that capture the same error-stream text report the same
    verdict, the classifier's verdict of that text, whatever the two
    subprocesses wrote to their output streams and whatever their exit
    codes. *)
Theorem verdict_depends_on_stderr_only
    (sp1 sp2 : subprocess) (uri1 desc1 uri2 desc2 out1 out2 err : str) :
  captures sp1 out1 err ->
  captures sp2 out2 err ->
  reported (printed (run_trace sp1 uri1 desc1)) = [classify err]
  /\ reported (printed (run_trace sp2 uri2 desc2))
     = reported (printed (run_trace sp1 uri1 desc1)).
Proof.
  intros H1 H2.
  rewrite (reported_of_capture sp1 uri1 desc1 out1 err H1).
  rewrite (reported_of_capture sp2 uri2 desc2 out2 err H2).
  split; reflexivity.
Qed.

Lemma verdict_depends_on_stderr_only_witness :
  reported (printed (run_trace
     (well_behaved (lit "Content-Length: 2") (lit "workspace not found")
                   (Some 0%Z))
     host_uri host_description)) = [NotRecognized]
  /\ reported (printed (run_trace
       (well_behaved [] (lit "workspace not found") None)
       container_uri container_description))
     = reported (printed (run_trace
         (well_behaved (lit "Content-Length: 2") (lit "workspace not found")
                       (Some 0%Z))
         host_uri host_description)).
Proof.
  apply (verdict_depends_on_stderr_only
           (well_behaved (lit "Content-Length: 2") (lit "workspace not found")
                         (Some 0%Z))
           (well_behaved [] (lit "workspace not found") None)
           host_uri host_description container_uri container_description
           (lit "Content-Length: 2") [] (lit "workspace not found"));
    (split; [reflexivity | split; [intros; reflexivity | reflexivity]]).
Defined.

(** C1, evaluated on the code: the error text ["no go.mod found"] holds
    the marker ["go.mod"], so the first test of the chain succeeds and the
    run reports the workspace as recognized, not as not-recognized; the
    [elif] that tests ["no go.mod"] is never reached with a true
    condition. *)
Example no_go_mod_found_is_reported_recognized :
  classify (lit "no go.mod found") = Recognized
  /\ classify (lit "no go.mod found") <> NotRecognized
  /\ reported (printed (run_trace
                          (well_behaved [] (lit "no go.mod found") (Some 1%Z))
                          (lit "file:///host/project")
                          (lit "Host path")))
     = [Recognized].
Proof.
  split; [reflexivity|]. split; [discriminate|]. vm_compute. reflexivity.
Qed.

(** When both subprocesses start, the runner reaches its closing lines,
    whatever fails afterwards in either scenario. *)
Lemma runner_completes_after_spawn sp1 sp2 st :
  popen_raises sp1 = None ->
  popen_raises sp2 = None ->
  fst (main sp1 sp2 st) = Ok tt.
Proof.
  intros H1 H2. unfold main.
  unfold bind at 1. unfold print at 1, emit at 1.
  unfold bind at 1.
  pose proof (failure_after_spawn_is_local sp1 host_uri host_description) as L1.
  match goal with
  | |- context [test_workspace_recognition sp1 ?u ?d ?s] =>
      specialize (L1 s H1);
      destruct (test_workspace_recognition sp1 u d s) as [r1 st1]
  end.
  simpl in L1. subst r1.
  unfold bind at 1.
  pose proof (failure_after_spawn_is_local sp2 container_uri
                container_description st1 H2) as L2.
  destruct (test_workspace_recognition sp2 container_uri
              container_description st1) as [r2 st2].
  simpl in L2. subst r2. reflexivity.
Qed.

(** C4, evaluated on the code: when [Popen] fails in the first scenario,
    the handler prints the error, the [finally] clause then reads the
    unbound [process], and the exception it raises ends the runner: the
    second scenario is not run, whatever its subprocess would do, and no
    verdict line is printed. *)
Example spawn_failure_ends_the_runner (sp2 : subprocess) :
  exists e st,
    main not_spawned sp2 start = (Raise e, st)
    /\ exc_class e = UnboundLocalError
    /\ printed (trace st)
       = [lit "=== PHASE 0: GOPLS WORKSPACE RECOGNITION TEST ===";
          nl ++ lit "=== TESTING: Host path (current behavior - should FAIL) ===";
          lit "Workspace URI: file:///Users/ksoichiro/src/github.com/ksoichiro/container.nvim";
          lit "Error: [Errno 2] No such file or directory: 'docker'"]
    /\ reported (printed (trace st)) = []
    /\ written (trace st) = [].
Proof.
  do 2 eexists. split; [vm_compute; reflexivity|].
  repeat split.
Qed.

End ProbeProperties.

(* ================================================================== *)
(** ** JSON text: reading back what [dumps] wrote *)

Section JsonFacts.

Lemma str_eqb_eq (a b : str) : str_eqb a b = true <-> a = b.
Proof.
  revert b; induction a as [|x a IH]; intros [|y b]; simpl;
    try (split; [discriminate | discriminate]); [tauto|].
  rewrite andb_true_iff, N.eqb_eq, IH.
  split; [intros [-> ->]; reflexivity | intros [= -> ->]; auto].
Qed.

Lemma str_eqb_refl (a : str) : str_eqb a a = true.
Proof. now apply str_eqb_eq. Qed.

(** *** Numbers *)

Lemma scan_digits_uint_str (u : Decimal.uint) (r : str) :
  starts_with_digit r = false ->
  scan_digits (uint_str u ++ r) = (u, r).
Proof.
  intros Hr.
  induction u; simpl; try (rewrite IHu; reflexivity).
  destruct r as [|c r]; [reflexivity|].
  simpl in Hr |- *. now rewrite Hr.
Qed.

Lemma unorm_fixed (u : Decimal.uint) :
  Decimal.unorm u = u ->
  u = Decimal.D0 Decimal.Nil \/ match u with
                                 | Decimal.Nil | Decimal.D0 _ => False
                                 | _ => True
                                 end.
Proof.
  destruct u; intros H; try (right; exact I).
  - discriminate H.
  - destruct u; try (left; reflexivity); exfalso;
      rewrite unorm_D0 in H;
      match type of H with
      | Decimal.unorm ?x = _ =>
          assert (Hn : x <> Decimal.Nil) by discriminate;
          pose proof (nb_digits_unorm x Hn) as Hle
      end;
      rewrite H in Hle; simpl in Hle; lia.
Qed.

Lemma pos_to_uint_head (p : positive) :
  match Pos.to_uint p with
  | Decimal.Nil | Decimal.D0 _ => False
  | _ => True
  end.
Proof.
  assert (H : Decimal.unorm (Pos.to_uint p) = Pos.to_uint p).
  { pose proof (DecimalPos.Unsigned.to_of (Pos.to_uint p)) as H.
    rewrite DecimalPos.Unsigned.of_to in H. symmetry. exact H. }
  destruct (unorm_fixed _ H) as [H0|H0]; [|exact H0].
  exfalso. revert H0. apply DecimalPos.Unsigned.to_uint_nonzero.
Qed.

Lemma scan_natural_pos (p : positive) (r : str) :
  starts_with_digit r = false ->
  scan_natural (uint_str (Pos.to_uint p) ++ r) = Some (Pos.to_uint p, r).
Proof.
  intros Hr.
  pose proof (pos_to_uint_head p) as Hh.
  pose proof (scan_digits_uint_str (Pos.to_uint p) r Hr) as Hs.
  destruct (Pos.to_uint p); try contradiction;
    unfold scan_natural; simpl uint_str in *; simpl app in *;
    cbn [N.eqb Pos.eqb is_digit]; 
    rewrite Hs; reflexivity.
Qed.


Lemma scan_number_repr_int (z : Z) (r : str) :
  ends_number r = true ->
  scan_number (repr_int z ++ r) = Some (PyInt z, r).
Proof.
  unfold ends_number. rewrite andb_true_iff, !negb_true_iff.
  intros [Hd Hf].
  pose proof (DecimalZ.of_to z) as Hz.
  unfold repr_int.
  destruct z as [|p|p]; simpl Z.to_int in *.
  - unfold scan_number; simpl. now rewrite Hf.
  - pose proof (pos_to_uint_head p) as Hh.
    pose proof (scan_natural_pos p r Hd) as Hs.
    unfold scan_number.
    destruct (Pos.to_uint p) eqn:E; try contradiction;
      simpl uint_str in *; simpl app in *; cbn [N.eqb Pos.eqb];
      rewrite Hs, Hf, Hz; reflexivity.
  - pose proof (scan_natural_pos p r Hd) as Hs.
    unfold scan_number. simpl app. cbn [N.eqb Pos.eqb].
    rewrite Hs, Hf, Hz. reflexivity.
Qed.

(** *** Hexadecimal escapes *)

Lemma unhex_hex_digit (d : N) : d < 16 -> unhex (hex_digit d) = Some d.
Proof.
  intros H.
  assert (Hd : In d [0;1;2;3;4;5;6;7;8;9;10;11;12;13;14;15]).
  { simpl. lia. }
  simpl in Hd.
  repeat (destruct Hd as [<-|Hd]; [reflexivity|]). contradiction.
Qed.

Lemma decode_hex4_hex4 (n : N) :
  n < 65536 ->
  match hex4 n with
  | [a; b; c; d] => decode_hex4 a b c d = Some n
  | _ => False
  end.
Proof.
  intros H. unfold hex4, decode_hex4.
  rewrite !unhex_hex_digit by (apply N.mod_lt; discriminate).
  f_equal.
  pose proof (N.div_mod n 16 ltac:(discriminate)).
  pose proof (N.div_mod (n / 16) 16 ltac:(discriminate)).
  pose proof (N.div_mod (n / 16 / 16) 16 ltac:(discriminate)).
  assert (E2 : n / 256 = n / 16 / 16)
    by (rewrite N.Div0.div_div; reflexivity).
  assert (E3 : n / 4096 = n / 16 / 16 / 16)
    by (rewrite !N.Div0.div_div; reflexivity).
  assert (n / 4096 < 16) by (apply N.Div0.div_lt_upper_bound; lia).
  rewrite (N.mod_small (n / 4096) 16) by assumption.
  rewrite E2, E3. lia.
Qed.

Lemma lor_shiftl_low (a b : N) :
  b < 1024 -> N.lor (N.shiftl a 10) b = 1024 * a + b.
Proof.
  intros Hb.
  rewrite <- N.lxor_lor, <- N.add_nocarry_lxor.
  - rewrite N.shiftl_mul_pow2. change (2 ^ 10) with 1024. lia.
  - apply N.bits_inj_0. intros i. rewrite N.land_spec.
    destruct (N.lt_ge_cases i 10) as [Hi|Hi].
    + now rewrite N.shiftl_spec_low.
    + rewrite andb_false_iff. right.
      destruct (N.eq_dec b 0) as [->|Hb0]; [apply N.bits_0|].
      apply N.bits_above_log2.
      apply N.log2_lt_pow2; [lia|].
      apply N.lt_le_trans with (2 ^ 10); [exact Hb|].
      apply N.pow_le_mono_r; [discriminate | exact Hi].
  - apply N.bits_inj_0. intros i. rewrite N.land_spec.
    destruct (N.lt_ge_cases i 10) as [Hi|Hi].
    + now rewrite N.shiftl_spec_low.
    + rewrite andb_false_iff. right.
      destruct (N.eq_dec b 0) as [->|Hb0]; [apply N.bits_0|].
      apply N.bits_above_log2.
      apply N.log2_lt_pow2; [lia|].
      apply N.lt_le_trans with (2 ^ 10); [exact Hb|].
      apply N.pow_le_mono_r; [discriminate | exact Hi].
Qed.


Lemma decode_hex4_digits (n : N) :
  n < 65536 ->
  decode_hex4 (hex_digit (n / 4096 mod 16)) (hex_digit (n / 256 mod 16))
              (hex_digit (n / 16 mod 16)) (hex_digit (n mod 16)) = Some n.
Proof. exact (decode_hex4_hex4 n). Qed.

Lemma high_surrogate_value (n : N) :
  n < 1048576 ->
  N.lor 55296 (N.land (N.shiftr n 10) 1023) = 55296 + n / 1024.
Proof.
  intros Hn.
  change 1023 with (N.ones 10). rewrite N.land_ones, N.shiftr_div_pow2.
  change (2 ^ 10) with 1024.
  assert (n / 1024 < 1024) by (apply N.Div0.div_lt_upper_bound; lia).
  rewrite N.mod_small by assumption.
  change 55296 with (N.shiftl 54 10) at 1.
  rewrite lor_shiftl_low by assumption. lia.
Qed.

Lemma low_surrogate_value (n : N) :
  N.lor 56320 (N.land n 1023) = 56320 + n mod 1024.
Proof.
  change 1023 with (N.ones 10). rewrite N.land_ones.
  change (2 ^ 10) with 1024.
  change 56320 with (N.shiftl 55 10) at 1.
  rewrite lor_shiftl_low by (apply N.mod_lt; discriminate). lia.
Qed.

Lemma join_surrogates_value (n : N) :
  n < 1048576 ->
  join_surrogates (55296 + n / 1024) (56320 + n mod 1024) = 65536 + n.
Proof.
  intros Hn. unfold join_surrogates.
  rewrite (N.add_comm 55296), (N.add_comm 56320), !N.add_sub.
  rewrite lor_shiftl_low by (apply N.mod_lt; discriminate).
  f_equal. symmetry.
  apply N.div_mod. discriminate.
Qed.

Lemma high_surrogate_range (q : N) :
  q < 1024 -> is_high_surrogate (55296 + q) = true.
Proof.
  intros H. unfold is_high_surrogate.
  apply andb_true_iff; split; apply N.leb_le; lia.
Qed.

Lemma low_surrogate_range (q : N) :
  q < 1024 -> is_low_surrogate (56320 + q) = true.
Proof.
  intros H. unfold is_low_surrogate.
  apply andb_true_iff; split; apply N.leb_le; lia.
Qed.

Ltac eqb_cases c :=
  repeat match goal with
  | |- context [c =? ?k] =>
      let E := fresh "E" in
      destruct (c =? k) eqn:E;
      [apply N.eqb_eq in E; subst c; reflexivity | apply N.eqb_neq in E]
  end.

(** After a lone high surrogate the scanner goes on with the text,
    unless the escape of a low surrogate follows. *)
Lemma scanstring_after_high (uni : N) (s3 : str) :
  low_escape_follows s3 = false ->
  match s3 with
  | bs :: lu :: h1 :: h2 :: h3 :: h4 :: s4 =>
      if (bs =? 92) && (lu =? 117) then
        match decode_hex4 h1 h2 h3 h4 with
        | None => None
        | Some uni2 =>
            if is_low_surrogate uni2
            then cons_char (join_surrogates uni uni2) (scanstring s4)
            else cons_char uni (scanstring s3)
        end
      else cons_char uni (scanstring s3)
  | _ => cons_char uni (scanstring s3)
  end = cons_char uni (scanstring s3).
Proof.
  intros H.
  destruct s3 as [|bs [|lu [|h1 [|h2 [|h3 [|h4 s4]]]]]]; try reflexivity.
  unfold low_escape_follows in H.
  destruct ((bs =? 92) && (lu =? 117)); [|reflexivity].
  cbn [andb] in H.
  destruct (decode_hex4 h1 h2 h3 h4); [|discriminate].
  now rewrite H.
Qed.

(** The scanner undoes the escape of one code point. *)
Lemma scanstring_escape_cp (c : N) (t : str) :
  is_code_point c = true ->
  (is_high_surrogate c = true -> low_escape_follows t = false) ->
  scanstring (escape_cp c ++ t) = cons_char c (scanstring t).
Proof.
  intros Hc Ht. unfold is_code_point in Hc. apply N.ltb_lt in Hc.
  unfold escape_cp.
  eqb_cases c.
  destruct ((32 <=? c) && (c <=? 126)) eqn:Hp.
  - apply andb_true_iff in Hp as [Hlo Hhi]. apply N.leb_le in Hlo.
    cbn [app scanstring].
    rewrite (proj2 (N.eqb_neq c 34)), (proj2 (N.eqb_neq c 92)) by assumption.
    now rewrite (proj2 (N.ltb_ge c 32)).
  - destruct (c <? 65536) eqn:Hb.
    + apply N.ltb_lt in Hb.
      unfold backslash_u, hex4. cbn [app scanstring N.eqb Pos.eqb].
      rewrite decode_hex4_digits by assumption.
      destruct (is_high_surrogate c); [|reflexivity].
      apply scanstring_after_high. now apply Ht.
    + apply N.ltb_ge in Hb.
      assert (Hn : c - 65536 < 1048576) by lia.
      cbv zeta.
      rewrite high_surrogate_value, low_surrogate_value by assumption.
      assert (Hcn : 65536 + (c - 65536) = c) by lia.
      revert Hn Hcn. generalize (c - 65536). intros n Hn Hcn.
      assert (Hq : n / 1024 < 1024)
        by (apply N.Div0.div_lt_upper_bound; lia).
      assert (Hr : n mod 1024 < 1024) by (apply N.mod_lt; discriminate).
      unfold backslash_u, hex4. cbn [app scanstring N.eqb Pos.eqb].
      rewrite decode_hex4_digits by lia.
      rewrite high_surrogate_range by assumption.
      cbn [andb].
      rewrite decode_hex4_digits by lia.
      rewrite low_surrogate_range by assumption.
      rewrite join_surrogates_value by assumption.
      now rewrite Hcn.
Qed.

Lemma low_escape_follows_head (x : N) (t : str) :
  x <> 92 -> low_escape_follows (x :: t) = false.
Proof.
  intros Hx. apply N.eqb_neq in Hx.
  destruct t as [|lu [|h1 [|h2 [|h3 [|h4 s4]]]]]; try reflexivity.
  unfold low_escape_follows. now rewrite Hx.
Qed.

Lemma low_escape_follows_second (x y : N) (t : str) :
  y <> 117 -> low_escape_follows (x :: y :: t) = false.
Proof.
  intros Hy. apply N.eqb_neq in Hy.
  destruct t as [|h1 [|h2 [|h3 [|h4 s4]]]]; try reflexivity.
  unfold low_escape_follows. now rewrite Hy, andb_false_r.
Qed.

(** The escape of a code point that is no low surrogate does not begin
    like the escape of one. *)
Lemma low_escape_follows_escape_cp (c : N) (t : str) :
  is_code_point c = true ->
  is_low_surrogate c = false ->
  low_escape_follows (escape_cp c ++ t) = false.
Proof.
  intros Hc Hlow. unfold is_code_point in Hc. apply N.ltb_lt in Hc.
  unfold escape_cp.
  repeat match goal with
         | |- context [if c =? ?k then _ else _] =>
             destruct (c =? k) eqn:?;
             [apply low_escape_follows_second; discriminate|]
         end.
  destruct ((32 <=? c) && (c <=? 126)) eqn:Hp.
  - apply low_escape_follows_head. now apply N.eqb_neq.
  - destruct (c <? 65536) eqn:Hb.
    + apply N.ltb_lt in Hb.
      unfold backslash_u, hex4, low_escape_follows.
      cbn [app N.eqb Pos.eqb andb].
      now rewrite decode_hex4_digits.
    + apply N.ltb_ge in Hb.
      assert (Hn : c - 65536 < 1048576) by lia.
      cbv zeta. rewrite high_surrogate_value by assumption.
      revert Hn. generalize (c - 65536). intros n Hn.
      assert (Hq : n / 1024 < 1024)
        by (apply N.Div0.div_lt_upper_bound; lia).
      revert Hq. generalize (n / 1024). intros q Hq.
      unfold backslash_u, hex4, low_escape_follows.
      cbn [app N.eqb Pos.eqb andb].
      rewrite decode_hex4_digits by lia.
      unfold is_low_surrogate. apply andb_false_iff. left.
      apply N.leb_gt. lia.
Qed.

Lemma scanstring_escaped (s r : str) :
  wf_str s = true ->
  scanstring (flat_map escape_cp s ++ 34 :: r) = Some (s, r).
Proof.
  unfold wf_str. rewrite andb_true_iff. intros [Hcp Hpair].
  induction s as [|c s IH]; [reflexivity|].
  cbn [forallb] in Hcp. apply andb_true_iff in Hcp as [Hc Hcp].
  cbn [flat_map]. rewrite <- app_assoc, scanstring_escape_cp.
  - rewrite IH; [reflexivity | exact Hcp |].
    destruct s as [|c' s]; [reflexivity|].
    change (negb (is_high_surrogate c && is_low_surrogate c')
            && no_surrogate_pair (c' :: s) = true) in Hpair.
    now apply andb_true_iff in Hpair as [_ Hpair].
  - exact Hc.
  - intros Hhigh. destruct s as [|c' s].
    + apply low_escape_follows_head. discriminate.
    + change (negb (is_high_surrogate c && is_low_surrogate c')
              && no_surrogate_pair (c' :: s) = true) in Hpair.
      apply andb_true_iff in Hpair as [Hpair _].
      rewrite Hhigh in Hpair. cbn [andb] in Hpair.
      apply negb_true_iff in Hpair.
      cbn [forallb] in Hcp. apply andb_true_iff in Hcp as [Hc' _].
      cbn [flat_map]. rewrite <- app_assoc.
      now apply low_escape_follows_escape_cp.
Qed.

(** Text is well formed. *)
Lemma is_text_wf_str (s : str) : is_text s = true -> wf_str s = true.
Proof.
  unfold wf_str, is_text. intros H. apply andb_true_iff. split.
  - induction s as [|c s IH]; [reflexivity|].
    cbn [forallb] in H |- *. apply andb_true_iff in H as [Hc Hs].
    rewrite (IH Hs), andb_true_r.
    unfold scalar_cp in Hc. unfold is_code_point. apply N.ltb_lt.
    apply orb_true_iff in Hc as [Hc|Hc].
    + apply N.ltb_lt in Hc. lia.
    + apply andb_true_iff in Hc as [_ Hc]. now apply N.ltb_lt in Hc.
  - induction s as [|c s IH]; [reflexivity|].
    cbn [forallb] in H. apply andb_true_iff in H as [Hc Hs].
    destruct s as [|c' s]; [reflexivity|].
    change (negb (is_high_surrogate c && is_low_surrogate c')
            && no_surrogate_pair (c' :: s) = true).
    rewrite (IH Hs), andb_true_r.
    apply negb_true_iff, andb_false_iff. left.
    unfold scalar_cp in Hc. unfold is_high_surrogate.
    apply orb_true_iff in Hc as [Hc|Hc].
    + apply N.ltb_lt in Hc. apply andb_false_iff. left.
      apply N.leb_gt. lia.
    + apply andb_true_iff in Hc as [Hc _]. apply N.ltb_lt in Hc.
      apply andb_false_iff. right. apply N.leb_gt. lia.
Qed.

End JsonFacts.

Section ScanFacts.

(** Induction on objects, through the lists they hold. *)
Lemma value_ind (P : value -> Prop) :
  P PyNone ->
  (forall b, P (PyBool b)) ->
  (forall z, P (PyInt z)) ->
  (forall s, P (PyStr s)) ->
  (forall l, Forall P l -> P (PyList l)) ->
  (forall d, Forall (fun kv => P (snd kv)) d -> P (PyDict d)) ->
  forall v, P v.
Proof.
  intros HN HB HI HS HL HD.
  fix IH 1.
  intros [ | b | z | s | l | d ];
    [apply HN | apply HB | apply HI | apply HS | | ].
  - apply HL. induction l as [|x l IHl]; constructor; [apply IH | exact IHl].
  - apply HD.
    induction d as [|[k x] d IHd]; constructor; [apply IH | exact IHd].
Qed.

(** *** Dictionaries *)

Lemma existsb_str_eqb (k : str) (l : list str) :
  existsb (str_eqb k) l = true <-> In k l.
Proof.
  rewrite existsb_exists. split.
  - intros (x & Hin & Hx). apply str_eqb_eq in Hx. now subst.
  - intros Hin. exists k. split; [exact Hin | apply str_eqb_refl].
Qed.

Lemma distinct_NoDup (l : list str) : distinct l = true <-> NoDup l.
Proof.
  induction l as [|k l IH]; simpl.
  - split; [constructor | reflexivity].
  - rewrite andb_true_iff, negb_true_iff, IH. split.
    + intros [Hk Hl]. constructor; [|exact Hl].
      intros Hin. apply existsb_str_eqb in Hin. congruence.
    + intros H. inversion H as [|? ? Hk Hl]; subst. split; [|exact Hl].
      destruct (existsb (str_eqb k) l) eqn:E; [|reflexivity].
      apply existsb_str_eqb in E. contradiction.
Qed.

Lemma dict_set_new (k : str) (v : value) (d : dict) :
  ~ In k (keys d) -> dict_set k v d = d ++ [(k, v)].
Proof.
  induction d as [|[k' v'] d IH]; simpl; intros Hk; [reflexivity|].
  destruct (str_eqb k k') eqn:E.
  - apply str_eqb_eq in E. subst. tauto.
  - rewrite IH by tauto. reflexivity.
Qed.

Lemma fold_dict_set (ps acc : dict) :
  NoDup (keys (acc ++ ps)) ->
  fold_left (fun d kv => dict_set (fst kv) (snd kv) d) ps acc = acc ++ ps.
Proof.
  revert acc. induction ps as [|[k v] ps IH]; intros acc H; simpl.
  - now rewrite List.app_nil_r.
  - assert (Hk : ~ In k (keys acc)).
    { unfold keys in *. rewrite map_app in H. simpl in H.
      apply NoDup_remove_2 in H. rewrite in_app_iff in H. tauto. }
    rewrite dict_set_new by exact Hk.
    rewrite IH; rewrite <- app_assoc; [reflexivity | exact H].
Qed.

Lemma dict_of_pairs_distinct (d : dict) :
  distinct (keys d) = true -> dict_of_pairs d = d.
Proof.
  intros H. apply distinct_NoDup in H.
  unfold dict_of_pairs. now rewrite fold_dict_set.
Qed.

(** *** The first character of a value *)

Lemma repr_int_head (z : Z) :
  exists c tl, repr_int z = c :: tl /\ (c = 45 \/ is_digit c = true).
Proof.
  unfold repr_int. destruct z as [|p|p]; simpl Z.to_int.
  - exists 48, []. split; [reflexivity | right; reflexivity].
  - pose proof (pos_to_uint_head p) as H.
    destruct (Pos.to_uint p); try contradiction; simpl;
      eexists _, _; (split; [reflexivity | right; reflexivity]).
  - simpl. eexists _, _. split; [reflexivity | left; reflexivity].
Qed.

Lemma dumps_head (v : value) :
  exists c tl, dumps v = c :: tl /\ starts_value c = true.
Proof.
  destruct v as [ | [] | z | s | l | d ];
    try (eexists _, _; split; reflexivity).
  destruct (repr_int_head z) as (c & tl & E & H).
  exists c, tl. split; [exact E|].
  destruct H as [->|H]; [reflexivity|].
  unfold is_digit in H. apply andb_true_iff in H as [H1 H2].
  apply N.leb_le in H1, H2. unfold starts_value, is_ws.
  repeat match goal with
         | |- context [c =? ?k] =>
             rewrite (proj2 (N.eqb_neq c k)) by lia
         end.
  reflexivity.
Qed.

Lemma skip_ws_dumps (v : value) (t : str) :
  skip_ws (dumps v ++ t) = dumps v ++ t.
Proof.
  destruct (dumps_head v) as (c & tl & -> & H).
  unfold starts_value in H.
  apply andb_true_iff in H as [H _]. apply andb_true_iff in H as [H _].
  apply negb_true_iff in H. simpl. now rewrite H.
Qed.

Lemma scan_once_number (f : nat) (c : N) (tl : str) :
  c = 45 \/ is_digit c = true ->
  scan_once (S f) (c :: tl) = scan_number (c :: tl).
Proof.
  intros [->|H]; [reflexivity|].
  unfold is_digit in H. apply andb_true_iff in H as [H1 H2].
  apply N.leb_le in H1, H2.
  cbn [scan_once].
  rewrite (proj2 (N.eqb_neq c 34)), (proj2 (N.eqb_neq c 123)),
          (proj2 (N.eqb_neq c 91)) by lia.
  change (lit "null") with [110; 117; 108; 108].
  change (lit "true") with [116; 114; 117; 101].
  change (lit "false") with [102; 97; 108; 115; 101].
  cbn [startswith].
  rewrite (proj2 (N.eqb_neq 110 c)), (proj2 (N.eqb_neq 116 c)),
          (proj2 (N.eqb_neq 102 c)) by lia.
  reflexivity.
Qed.

(** One step of each scanner, on texts of the shape [dumps] writes. *)

Lemma scan_items_last f s x r :
  scan_once f s = Some (x, 93 :: r) ->
  scan_items (S f) s = Some ([x], r).
Proof. intros H. cbn [scan_items]. now rewrite H. Qed.

Lemma scan_items_more f s x rest xs r :
  scan_once f s = Some (x, 44 :: 32 :: rest) ->
  skip_ws rest = rest ->
  scan_items f rest = Some (xs, r) ->
  scan_items (S f) s = Some (x :: xs, r).
Proof. intros H Hs Hi. cbn [scan_items]. rewrite H. simpl. now rewrite Hs, Hi. Qed.

Lemma scan_members_last f t k rest x r :
  scanstring t = Some (k, 58 :: 32 :: rest) ->
  skip_ws rest = rest ->
  scan_once f rest = Some (x, 125 :: r) ->
  scan_members (S f) (34 :: t) = Some ([(k, x)], r).
Proof.
  intros Hk Hs Hx. cbn [scan_members]. simpl. rewrite Hk. simpl.
  now rewrite Hs, Hx.
Qed.

Lemma scan_members_more f t k rest x rest2 xs r :
  scanstring t = Some (k, 58 :: 32 :: rest) ->
  skip_ws rest = rest ->
  scan_once f rest = Some (x, 44 :: 32 :: rest2) ->
  skip_ws rest2 = rest2 ->
  scan_members f rest2 = Some (xs, r) ->
  scan_members (S f) (34 :: t) = Some ((k, x) :: xs, r).
Proof.
  intros Hk Hs Hx Hs2 Hm. cbn [scan_members]. simpl. rewrite Hk. simpl.
  rewrite Hs, Hx. simpl. now rewrite Hs2, Hm.
Qed.

Lemma scan_once_list f c tl vs r :
  starts_value c = true ->
  scan_items f (c :: tl) = Some (vs, r) ->
  scan_once (S f) (91 :: c :: tl) = Some (PyList vs, r).
Proof.
  intros Hc Hi. unfold starts_value in Hc.
  apply andb_true_iff in Hc as [Hc _].
  apply andb_true_iff in Hc as [Hw Hc].
  apply negb_true_iff in Hw, Hc.
  cbn [scan_once]. simpl. now rewrite Hw, Hc, Hi.
Qed.

Lemma scan_once_dict f t ps r :
  scan_members f (34 :: t) = Some (ps, r) ->
  scan_once (S f) (123 :: 34 :: t) = Some (PyDict (dict_of_pairs ps), r).
Proof. intros Hm. cbn [scan_once]. simpl. now rewrite Hm. Qed.

(** The shape of the text of a list and of a dictionary. *)

Lemma items_text_one x t : items_text [x] ++ t = dumps x ++ t.
Proof. reflexivity. Qed.

Lemma items_text_cons x y ys t :
  items_text (x :: y :: ys) ++ t
  = dumps x ++ 44 :: 32 :: items_text (y :: ys) ++ t.
Proof.
  unfold items_text. cbn [map join]. now rewrite <- List.app_assoc.
Qed.

Lemma member_text_app k x t :
  member_text (k, x) ++ t
  = 34 :: (flat_map escape_cp k ++ 34 :: 58 :: 32 :: dumps x ++ t).
Proof.
  unfold member_text, encode_basestring_ascii. cbn [fst snd].
  change key_separator with [58; 32].
  simpl. now rewrite <- !List.app_assoc.
Qed.

Lemma members_text_one kv t : members_text [kv] ++ t = member_text kv ++ t.
Proof. reflexivity. Qed.

Lemma members_text_cons kv kv' d t :
  members_text (kv :: kv' :: d) ++ t
  = member_text kv ++ 44 :: 32 :: members_text (kv' :: d) ++ t.
Proof.
  unfold members_text. cbn [map join]. now rewrite <- List.app_assoc.
Qed.

Lemma skip_ws_items_text x xs t :
  skip_ws (items_text (x :: xs) ++ t) = items_text (x :: xs) ++ t.
Proof.
  destruct xs; [rewrite items_text_one | rewrite items_text_cons];
    apply skip_ws_dumps.
Qed.

Lemma skip_ws_members_text kv d t :
  skip_ws (members_text (kv :: d) ++ t) = members_text (kv :: d) ++ t.
Proof.
  destruct kv as [k x].
  destruct d; [rewrite members_text_one | rewrite members_text_cons];
    now rewrite member_text_app.
Qed.

Lemma scan_items_text (l : list value) :
  l <> [] ->
  Forall reads_back l ->
  forallb wf_value l = true ->
  forall fuel r,
    (items_depth l <= fuel)%nat ->
    scan_items fuel (items_text l ++ 93 :: r) = Some (l, r).
Proof.
  induction l as [|x xs IH]; [contradiction|].
  intros _ HF Hwf fuel r Hfuel.
  inversion HF as [|? ? Hx Hxs]; subst.
  simpl in Hwf. apply andb_true_iff in Hwf as [Hwx Hwxs].
  destruct fuel as [|f]; [simpl in Hfuel; lia|].
  simpl in Hfuel.
  destruct xs as [|y ys].
  - rewrite items_text_one. apply scan_items_last.
    apply (Hx Hwx); [lia | reflexivity].
  - rewrite items_text_cons.
    apply scan_items_more with (rest := items_text (y :: ys) ++ 93 :: r).
    + apply (Hx Hwx); [lia | reflexivity].
    + apply skip_ws_items_text.
    + apply IH; [discriminate | assumption | assumption | lia].
Qed.

Lemma scan_members_text (d : dict) :
  d <> [] ->
  Forall (fun kv => reads_back (snd kv)) d ->
  forallb (fun kv => wf_str (fst kv) && wf_value (snd kv)) d = true ->
  forall fuel r,
    (members_depth d <= fuel)%nat ->
    scan_members fuel (members_text d ++ 125 :: r) = Some (d, r).
Proof.
  induction d as [|[k x] xs IH]; [contradiction|].
  intros _ HF Hwf fuel r Hfuel.
  inversion HF as [|? ? Hx Hxs]; subst. simpl in Hx.
  simpl in Hwf. apply andb_true_iff in Hwf as [Hwx Hwxs].
  apply andb_true_iff in Hwx as [Hk Hwx].
  destruct fuel as [|f]; [simpl in Hfuel; lia|].
  simpl in Hfuel.
  destruct xs as [|y ys].
  - rewrite members_text_one, member_text_app.
    apply scan_members_last with (rest := dumps x ++ 125 :: r).
    + now apply scanstring_escaped.
    + apply skip_ws_dumps.
    + apply (Hx Hwx); [lia | reflexivity].
  - rewrite members_text_cons, member_text_app.
    apply scan_members_more
      with (rest := dumps x ++ 44 :: 32 :: members_text (y :: ys) ++ 125 :: r)
           (rest2 := members_text (y :: ys) ++ 125 :: r).
    + now apply scanstring_escaped.
    + apply skip_ws_dumps.
    + apply (Hx Hwx); [lia | reflexivity].
    + apply skip_ws_members_text.
    + apply IH; [discriminate | assumption | assumption | lia].
Qed.

Lemma dumps_list_app l t :
  dumps (PyList l) ++ t = 91 :: items_text l ++ 93 :: t.
Proof. cbn [dumps]. simpl. now rewrite <- List.app_assoc. Qed.

Lemma dumps_dict_app d t :
  dumps (PyDict d) ++ t = 123 :: members_text d ++ 125 :: t.
Proof. cbn [dumps]. simpl. now rewrite <- List.app_assoc. Qed.

(** [scan_once] reads back what [dumps] wrote, given fuel for the depth
    of the value. *)
Lemma scan_once_dumps (v : value) : reads_back v.
Proof.
  induction v as [ | b | z | s | l IHl | d IHd ] using value_ind;
    intros Hwf fuel r Hfuel Hr;
    (destruct fuel as [|f]; [simpl in Hfuel; lia|]).
  - reflexivity.
  - destruct b; reflexivity.
  - destruct (repr_int_head z) as (c & tl & E & H).
    pose proof (scan_number_repr_int z r Hr) as Hs.
    cbn [dumps]. rewrite E in Hs |- *.
    rewrite <- List.app_comm_cons in Hs |- *.
    now rewrite scan_once_number.
  - cbn [dumps]. unfold encode_basestring_ascii.
    simpl. rewrite <- List.app_assoc. simpl.
    now rewrite scanstring_escaped.
  - rewrite dumps_list_app.
    destruct l as [|x xs]; [reflexivity|].
    pose proof (scan_items_text (x :: xs) ltac:(discriminate) IHl Hwf f r)
      as Hitems.
    destruct (dumps_head x) as (c & tl & E & Hc).
    assert (Hshape : exists tl', items_text (x :: xs) ++ 93 :: r = c :: tl').
    { destruct xs; [rewrite items_text_one | rewrite items_text_cons];
        rewrite E; eexists; reflexivity. }
    destruct Hshape as [tl' Hshape]. rewrite Hshape in *.
    apply scan_once_list; [exact Hc|].
    apply Hitems. unfold items_depth. simpl in Hfuel |- *. lia.
  - rewrite dumps_dict_app.
    destruct d as [|[k x] xs]; [reflexivity|].
    simpl in Hwf. apply andb_true_iff in Hwf as [Hwf Hdist].
    pose proof (scan_members_text ((k, x) :: xs) ltac:(discriminate) IHd
                  Hwf f r) as Hm.
    assert (Hshape : exists tl', members_text ((k, x) :: xs) ++ 125 :: r
                                 = 34 :: tl').
    { destruct xs; [rewrite members_text_one | rewrite members_text_cons];
        rewrite member_text_app; eexists; reflexivity. }
    destruct Hshape as [tl' Hshape]. rewrite Hshape in *.
    rewrite <- (dict_of_pairs_distinct ((k, x) :: xs)) by exact Hdist.
    apply scan_once_dict. apply Hm.
    unfold members_depth. simpl in Hfuel |- *. lia.
Qed.

End ScanFacts.

(* ================================================================== *)
(** ** The wire: frames as bytes *)

Section WireFacts.

(** *** Fuel *)

Lemma dumps_length_pos (v : value) : (1 <= List.length (dumps v))%nat.
Proof.
  destruct (dumps_head v) as (c & tl & -> & _). simpl. lia.
Qed.

Lemma length_items_text_cons x y ys :
  List.length (items_text (x :: y :: ys))
  = (List.length (dumps x) + 2 + List.length (items_text (y :: ys)))%nat.
Proof.
  pose proof (items_text_cons x y ys []) as H.
  rewrite !List.app_nil_r in H. rewrite H, List.length_app. simpl. lia.
Qed.

Lemma length_members_text_cons kv kv' d :
  List.length (members_text (kv :: kv' :: d))
  = (List.length (member_text kv) + 2
     + List.length (members_text (kv' :: d)))%nat.
Proof.
  pose proof (members_text_cons kv kv' d []) as H.
  rewrite !List.app_nil_r in H. rewrite H, List.length_app. simpl. lia.
Qed.

Lemma length_member_text k x :
  (List.length (dumps x) <= List.length (member_text (k, x)))%nat.
Proof.
  unfold member_text. cbn [fst snd]. rewrite !List.length_app. lia.
Qed.

Lemma items_depth_le (l : list value) :
  Forall (fun v => (scan_depth v <= List.length (dumps v))%nat) l ->
  (items_depth l <= List.length (items_text l) + 1)%nat.
Proof.
  induction 1 as [|x xs Hx Hxs IH]; [simpl; lia|].
  destruct xs as [|y ys].
  - unfold items_text. simpl. lia.
  - rewrite length_items_text_cons.
    change (items_depth (x :: y :: ys))
      with (S (Nat.max (scan_depth x) (items_depth (y :: ys)))).
    lia.
Qed.

Lemma members_depth_le (d : dict) :
  Forall (fun kv => (scan_depth (snd kv) <= List.length (dumps (snd kv)))%nat) d ->
  (members_depth d <= List.length (members_text d) + 1)%nat.
Proof.
  induction 1 as [|[k x] xs Hx Hxs IH]; [simpl; lia|].
  simpl in Hx. pose proof (length_member_text k x) as Hm.
  destruct xs as [|y ys].
  - unfold members_text. simpl map. simpl join.
    change (members_depth [(k, x)]) with (S (Nat.max (scan_depth x) 0)).
    lia.
  - rewrite length_members_text_cons.
    change (members_depth ((k, x) :: y :: ys))
      with (S (Nat.max (scan_depth x) (members_depth (y :: ys)))).
    lia.
Qed.

Lemma scan_depth_le (v : value) :
  (scan_depth v <= List.length (dumps v))%nat.
Proof.
  induction v as [ | b | z | s | l IHl | d IHd ] using value_ind;
    try apply dumps_length_pos.
  - pose proof (items_depth_le l IHl) as H.
    pose proof (dumps_list_app l []) as E. rewrite List.app_nil_r in E.
    rewrite E. change (scan_depth (PyList l)) with (S (items_depth l)).
    simpl. rewrite List.length_app. simpl. lia.
  - pose proof (members_depth_le d IHd) as H.
    pose proof (dumps_dict_app d []) as E. rewrite List.app_nil_r in E.
    rewrite E. change (scan_depth (PyDict d)) with (S (members_depth d)).
    simpl. rewrite List.length_app. simpl. lia.
Qed.

(** [json.loads(json.dumps(v))] is [v]. *)
Lemma loads_dumps (v : value) :
  wf_value v = true -> loads (dumps v) = Some v.
Proof.
  intros Hwf. unfold loads.
  pose proof (skip_ws_dumps v []) as Hs. rewrite List.app_nil_r in Hs.
  rewrite Hs.
  pose proof (scan_once_dumps v Hwf (S (List.length (dumps v))) []) as H.
  rewrite List.app_nil_r in H. rewrite H; [reflexivity | | reflexivity].
  pose proof (scan_depth_le v). lia.
Qed.

(** *** ASCII *)

Lemma is_ascii_app (a b : str) :
  is_ascii (a ++ b) = is_ascii a && is_ascii b.
Proof. apply forallb_app. Qed.

Lemma hex_digit_ascii (d : N) : d < 16 -> (hex_digit d <? 128) = true.
Proof.
  intros H. unfold hex_digit. apply N.ltb_lt. destruct (d <? 10); lia.
Qed.

Lemma hex4_ascii (n : N) : is_ascii (hex4 n) = true.
Proof.
  unfold hex4, is_ascii. cbn [forallb].
  rewrite !hex_digit_ascii by (apply N.mod_lt; discriminate). reflexivity.
Qed.

Lemma escape_cp_ascii (c : N) : is_ascii (escape_cp c) = true.
Proof.
  unfold escape_cp.
  repeat match goal with
         | |- context [if ?c =? ?k then _ else _] =>
             destruct (c =? k); [reflexivity|]
         end.
  destruct ((32 <=? c) && (c <=? 126)) eqn:Hp.
  - apply andb_true_iff in Hp as [_ Hp]. apply N.leb_le in Hp.
    unfold is_ascii. cbn [forallb]. rewrite andb_true_r. apply N.ltb_lt. lia.
  - destruct (c <? 65536); cbv zeta;
      rewrite !is_ascii_app, !hex4_ascii; reflexivity.
Qed.

Lemma encode_basestring_ascii_is_ascii (s : str) :
  is_ascii (encode_basestring_ascii s) = true.
Proof.
  unfold encode_basestring_ascii.
  change (34 :: flat_map escape_cp s ++ [34])
    with ([34] ++ flat_map escape_cp s ++ [34]).
  rewrite !is_ascii_app. simpl (is_ascii [34]).
  rewrite andb_true_r. simpl.
  induction s as [|c s IH]; [reflexivity|].
  cbn [flat_map]. now rewrite is_ascii_app, escape_cp_ascii, IH.
Qed.

Lemma uint_str_ascii (u : Decimal.uint) : is_ascii (uint_str u) = true.
Proof. induction u; simpl; auto. Qed.

Lemma repr_int_ascii (z : Z) : is_ascii (repr_int z) = true.
Proof.
  unfold repr_int. destruct (Z.to_int z); simpl; apply uint_str_ascii.
Qed.

Lemma join_cons (sep a : str) (l : list str) :
  join sep (a :: l)
  = a ++ match l with [] => [] | _ :: _ => sep ++ join sep l end.
Proof. destruct l; simpl; [now rewrite List.app_nil_r | reflexivity]. Qed.

Lemma join_ascii (sep : str) (l : list str) :
  is_ascii sep = true ->
  Forall (fun s => is_ascii s = true) l ->
  is_ascii (join sep l) = true.
Proof.
  intros Hsep. induction 1 as [|x xs Hx Hxs IH]; [reflexivity|].
  rewrite join_cons, is_ascii_app, Hx.
  destruct xs; [reflexivity|].
  now rewrite is_ascii_app, Hsep, IH.
Qed.

(** With [ensure_ascii], the text [dumps] writes is ASCII, whatever the
    strings of the value hold. *)
Lemma dumps_ascii (v : value) : is_ascii (dumps v) = true.
Proof.
  induction v as [ | b | z | s | l IHl | d IHd ] using value_ind.
  - reflexivity.
  - destruct b; reflexivity.
  - apply repr_int_ascii.
  - apply encode_basestring_ascii_is_ascii.
  - pose proof (dumps_list_app l []) as E. rewrite List.app_nil_r in E.
    rewrite E.
    change (91 :: items_text l ++ [93]) with ([91] ++ items_text l ++ [93]).
    rewrite !is_ascii_app. unfold items_text.
    rewrite join_ascii; [reflexivity | reflexivity |].
    apply Forall_map. exact IHl.
  - pose proof (dumps_dict_app d []) as E. rewrite List.app_nil_r in E.
    rewrite E.
    change (123 :: members_text d ++ [125])
      with ([123] ++ members_text d ++ [125]).
    rewrite !is_ascii_app. unfold members_text.
    rewrite join_ascii; [reflexivity | reflexivity |].
    apply Forall_map.
    eapply Forall_impl; [|exact IHd].
    intros [k x] Hx. simpl in Hx. unfold member_text. cbn [fst snd].
    now rewrite !is_ascii_app, encode_basestring_ascii_is_ascii, Hx.
Qed.

(** ASCII text is its own UTF-8 encoding, one byte for each character. *)
Lemma utf8_encode_ascii (s : str) :
  is_ascii s = true -> utf8_encode s = Some s.
Proof.
  induction s as [|c s IH]; [reflexivity|].
  simpl. intros H. apply andb_true_iff in H as [Hc Hs].
  unfold utf8_cp. now rewrite Hc, IH.
Qed.

Lemma utf8_decode_ascii (s : str) :
  is_ascii s = true -> utf8_decode s = Some s.
Proof.
  induction s as [|c s IH]; [reflexivity|].
  simpl. intros H. apply andb_true_iff in H as [Hc Hs].
  now rewrite Hc, IH.
Qed.

End WireFacts.

Section FrameFacts.

Lemma n_to_uint_nonnil (n : N) : N.to_uint n <> Decimal.Nil.
Proof.
  destruct n as [|p]; [discriminate|].
  apply DecimalPos.Unsigned.to_uint_nonnil.
Qed.

Lemma frame_ascii (content : str) :
  is_ascii content = true -> is_ascii (frame content) = true.
Proof.
  intros H. unfold frame, repr_len.
  now rewrite !is_ascii_app, uint_str_ascii, H.
Qed.

(** The reader of the header finds the declared length and the body. *)
Lemma read_header_frame (content : str) :
  read_header (frame content) = Some (List.length content, content).
Proof.
  unfold read_header, frame, repr_len.
  rewrite startswith_app.
  rewrite skipn_app, skipn_all, Nat.sub_diag. cbn [skipn Datatypes.app].
  rewrite scan_digits_uint_str by reflexivity.
  pose proof (n_to_uint_nonnil (N.of_nat (List.length content))) as Hn.
  remember (N.to_uint (N.of_nat (List.length content))) as u eqn:Eu.
  assert (Ho : N.to_nat (N.of_uint u) = List.length content).
  { subst u. now rewrite DecimalN.Unsigned.of_to, Nnat.Nat2N.id. }
  rewrite <- Ho. clear Ho Eu.
  destruct u; [contradiction | reflexivity ..].
Qed.

Lemma read_message_frame (v : value) :
  wf_value v = true ->
  read_message (frame (dumps v)) = Some v.
Proof.
  intros Hwf. unfold read_message.
  rewrite read_header_frame, Nat.leb_refl, firstn_all.
  rewrite utf8_decode_ascii by apply dumps_ascii.
  now apply loads_dumps.
Qed.

Lemma wf_build_message (method : str) (params id : value) :
  wf_str method = true ->
  wf_value params = true ->
  wf_value id = true ->
  wf_value (build_message method params id) = true.
Proof.
  intros Hm Hp Hi.
  destruct id; simpl in *; rewrite ?Hm, ?Hp, ?Hi; reflexivity.
Qed.

End FrameFacts.

Section FrameRoundTrip.




(** Text, in particular, goes through. *)
Corollary frame_round_trip_text (method : str) (params : value) :
  is_text method = true ->
  wf_value params = true ->
  exists wire,
    utf8_encode (create_lsp_message method params PyNone) = Some wire
    /\ read_message wire = Some (build_message method params PyNone).
Proof.
  intros Hm Hp.
  pose proof (wf_build_message method params PyNone
                (is_text_wf_str method Hm) Hp eq_refl) as Hwf.
  exists (frame (dumps (build_message method params PyNone))).
  split.
  - apply utf8_encode_ascii, frame_ascii, dumps_ascii.
  - now apply read_message_frame.
Qed.

End FrameRoundTrip.
(* ================================================================== *)
(** ** Frames: further properties of [create_lsp_message] *)

Section FrameShape.

Lemma is_printable_app (a b : str) :
  is_printable (a ++ b) = is_printable a && is_printable b.
Proof. apply forallb_app. Qed.

Lemma hex_digit_printable (d : N) :
  d < 16 -> is_printable [hex_digit d] = true.
Proof.
  intros H. unfold hex_digit, is_printable. cbn [forallb].
  rewrite andb_true_r. apply andb_true_iff.
  destruct (d <? 10) eqn:E; split; apply N.leb_le;
    try apply N.ltb_lt in E; try apply N.ltb_ge in E; lia.
Qed.

Lemma hex4_printable (n : N) : is_printable (hex4 n) = true.
Proof.
  unfold hex4.
  change (is_printable ([hex_digit (n / 4096 mod 16)]
                        ++ [hex_digit (n / 256 mod 16)]
                        ++ [hex_digit (n / 16 mod 16)]
                        ++ [hex_digit (n mod 16)]) = true).
  rewrite !is_printable_app,
    !hex_digit_printable by (apply N.mod_lt; discriminate).
  reflexivity.
Qed.

Lemma escape_cp_printable (c : N) : is_printable (escape_cp c) = true.
Proof.
  unfold escape_cp.
  repeat match goal with
         | |- context [if c =? ?k then _ else _] =>
             destruct (c =? k); [reflexivity|]
         end.
  destruct ((32 <=? c) && (c <=? 126)) eqn:Hp.
  - unfold is_printable. cbn [forallb]. now rewrite Hp.
  - destruct (c <? 65536); cbv zeta;
      rewrite !is_printable_app, !hex4_printable; reflexivity.
Qed.

Lemma encode_basestring_printable (s : str) :
  is_printable (encode_basestring_ascii s) = true.
Proof.
  unfold encode_basestring_ascii.
  change (34 :: flat_map escape_cp s ++ [34])
    with ([34] ++ flat_map escape_cp s ++ [34]).
  rewrite !is_printable_app. simpl (is_printable [34]).
  rewrite andb_true_r. simpl.
  induction s as [|c s IH]; [reflexivity|].
  cbn [flat_map]. now rewrite is_printable_app, escape_cp_printable, IH.
Qed.

Lemma uint_str_printable (u : Decimal.uint) : is_printable (uint_str u) = true.
Proof. induction u; simpl; auto. Qed.

Lemma repr_int_printable (z : Z) : is_printable (repr_int z) = true.
Proof.
  unfold repr_int. destruct (Z.to_int z); simpl; apply uint_str_printable.
Qed.

Lemma join_printable (sep : str) (l : list str) :
  is_printable sep = true ->
  Forall (fun s => is_printable s = true) l ->
  is_printable (join sep l) = true.
Proof.
  intros Hsep. induction 1 as [|x xs Hx Hxs IH]; [reflexivity|].
  rewrite join_cons, is_printable_app, Hx.
  destruct xs; [reflexivity|].
  now rewrite is_printable_app, Hsep, IH.
Qed.

(** Whatever the value holds, [dumps] writes printable ASCII only. *)
Lemma dumps_printable (v : value) : is_printable (dumps v) = true.
Proof.
  induction v as [ | b | z | s | l IHl | d IHd ] using value_ind.
  - reflexivity.
  - destruct b; reflexivity.
  - apply repr_int_printable.
  - apply encode_basestring_printable.
  - pose proof (dumps_list_app l []) as E. rewrite List.app_nil_r in E.
    rewrite E.
    change (91 :: items_text l ++ [93]) with ([91] ++ items_text l ++ [93]).
    rewrite !is_printable_app. unfold items_text.
    rewrite join_printable; [reflexivity | reflexivity |].
    apply Forall_map. exact IHl.
  - pose proof (dumps_dict_app d []) as E. rewrite List.app_nil_r in E.
    rewrite E.
    change (123 :: members_text d ++ [125])
      with ([123] ++ members_text d ++ [125]).
    rewrite !is_printable_app. unfold members_text.
    rewrite join_printable; [reflexivity | reflexivity |].
    apply Forall_map.
    eapply Forall_impl; [|exact IHd].
    intros [k x] Hx. simpl in Hx. unfold member_text. cbn [fst snd].
    now rewrite !is_printable_app, encode_basestring_printable, Hx.
Qed.

Lemma line_breaks_printable (s : str) :
  is_printable s = true -> line_breaks s = [].
Proof.
  induction s as [|c s IH]; [reflexivity|].
  unfold is_printable. cbn [forallb]. intros H.
  apply andb_true_iff in H as [Hc Hs].
  apply andb_true_iff in Hc as [Hc _]. apply N.leb_le in Hc.
  unfold line_breaks. cbn [filter]. unfold is_line_break at 1.
  rewrite (proj2 (N.eqb_neq c 13)), (proj2 (N.eqb_neq c 10)) by lia.
  apply IH, Hs.
Qed.

Lemma line_breaks_app (a b : str) :
  line_breaks (a ++ b) = line_breaks a ++ line_breaks b.
Proof. apply filter_app. Qed.

(** X1: for every method, params and id, whatever code points their
    strings hold, the body is ASCII: its UTF-8 encoding is the body
    itself, one byte for each character, the frame encodes the same way,
    and the header read from the frame declares exactly that number of
    bytes. *)
Theorem content_length_is_byte_length (method : str) (params id : value) :
  let body := dumps (build_message method params id) in
  utf8_encode body = Some body
  /\ utf8_encode (create_lsp_message method params id)
     = Some (create_lsp_message method params id)
  /\ read_header (create_lsp_message method params id)
     = Some (List.length body, body).
Proof.
  intros body. split; [|split].
  - apply utf8_encode_ascii, dumps_ascii.
  - apply utf8_encode_ascii, frame_ascii, dumps_ascii.
  - apply read_header_frame.
Qed.

(** X2: the body is one line of printable ASCII, and the only carriage
    returns and line feeds of a frame are the four that end its header:
    no method, params or id can put a line break, or a second header,
    into a frame. *)
Theorem frame_has_one_blank_line (method : str) (params id : value) :
  is_printable (dumps (build_message method params id)) = true
  /\ line_breaks (create_lsp_message method params id) = [13; 10; 13; 10].
Proof.
  split; [apply dumps_printable|].
  unfold create_lsp_message, frame, repr_len.
  rewrite !line_breaks_app.
  rewrite (line_breaks_printable header_name) by reflexivity.
  rewrite (line_breaks_printable (uint_str _)) by apply uint_str_printable.
  rewrite (line_breaks_printable (dumps _)) by apply dumps_printable.
  reflexivity.
Qed.

Lemma build_message_entries (method : str) (params id : value) :
  build_message method params id
  = PyDict ([(lit "jsonrpc", PyStr (lit "2.0"));
             (lit "method", PyStr method);
             (lit "params", params)] ++ id_entry id).
Proof. destruct id; reflexivity. Qed.

Lemma id_entry_inj (i1 i2 : value) : id_entry i1 = id_entry i2 -> i1 = i2.
Proof.
  destruct i1, i2; simpl; intros H; try reflexivity; try discriminate;
    congruence.
Qed.

(** X3: on well-formed arguments the codec is injective: two calls that
    give the same frame were given the same method, params and id. *)
Theorem create_lsp_message_injective
    (m1 m2 : str) (p1 p2 i1 i2 : value) :
  wf_str m1 = true -> wf_value p1 = true -> wf_value i1 = true ->
  wf_str m2 = true -> wf_value p2 = true -> wf_value i2 = true ->
  create_lsp_message m1 p1 i1 = create_lsp_message m2 p2 i2 ->
  m1 = m2 /\ p1 = p2 /\ i1 = i2.
Proof.
  intros Hm1 Hp1 Hi1 Hm2 Hp2 Hi2 E.
  pose proof (read_message_frame _ (wf_build_message m1 p1 i1 Hm1 Hp1 Hi1))
    as R1.
  pose proof (read_message_frame _ (wf_build_message m2 p2 i2 Hm2 Hp2 Hi2))
    as R2.
  unfold create_lsp_message in E. rewrite E, R2 in R1.
  injection R1 as R1. rewrite !build_message_entries in R1.
  injection R1 as Hm Hp Hi.
  repeat split; auto using id_entry_inj.
Qed.

Lemma create_lsp_message_injective_witness :
  lit "initialized" = lit "initialized"
  /\ PyDict [] = PyDict [] /\ PyInt 7 = PyInt 7.
Proof.
  apply (create_lsp_message_injective
           (lit "initialized") (lit "initialized")
           (PyDict []) (PyDict []) (PyInt 7) (PyInt 7));
    reflexivity.
Defined.

End FrameShape.

(* ================================================================== *)
(** ** The classifier and the excerpts: further properties *)

Section ClassifierExtras.

Lemma contains_mono (p a s b : str) :
  contains p s = true -> contains p (a ++ s ++ b) = true.
Proof.
  intros H. apply contains_inv in H as (x & y & ->).
  replace (a ++ (x ++ p ++ y) ++ b) with ((a ++ x) ++ p ++ (y ++ b))
    by now rewrite <- !List.app_assoc.
  apply contains_app.
Qed.

Lemma contains_lower_mono (p a s b : str) :
  contains p (lower s) = true -> contains p (lower (a ++ s ++ b)) = true.
Proof. intros H. rewrite !lower_app. now apply contains_mono. Qed.

(** X4: more log text never takes a verdict back.  A recognized text
    stays recognized whatever is written before and after it; a text
    with a verdict, embedded in a longer one, never becomes
    inconclusive; so every part of an inconclusive text is
    inconclusive. *)
Theorem classify_extension (a s b : str) :
  (classify s = Recognized -> classify (a ++ s ++ b) = Recognized)
  /\ (classify s <> Inconclusive -> classify (a ++ s ++ b) <> Inconclusive)
  /\ (classify (a ++ s ++ b) = Inconclusive -> classify s = Inconclusive).
Proof.
  assert (H2 : classify s <> Inconclusive ->
               classify (a ++ s ++ b) <> Inconclusive).
  { unfold classify.
    destruct (contains found_marker (lower s)) eqn:Hf.
    - rewrite (contains_lower_mono _ a s b Hf). discriminate.
    - destruct (contains no_manifest_marker (lower s)) eqn:Hn.
      + rewrite (contains_lower_mono _ a s b Hn).
        destruct (contains found_marker (lower (a ++ s ++ b))); discriminate.
      + destruct (contains not_found_marker (lower s)) eqn:Hnf.
        * rewrite (contains_lower_mono _ a s b Hnf), !orb_true_r.
          destruct (contains found_marker (lower (a ++ s ++ b))); discriminate.
        * intros H. now contradiction H. }
  split; [|split].
  - intros H. apply classify_recognized_iff in H.
    apply classify_recognized_iff. now apply contains_lower_mono.
  - exact H2.
  - intros H. destruct (classify s) eqn:E; try reflexivity;
      exfalso; (apply H2; [discriminate | exact H]).
Qed.

Lemma classify_extension_witness :
  classify (lit "2024 [info] using go.mod at /w" ++ lit "; done") = Recognized
  /\ classify (lit "pkg " ++ lit "not found" ++ lit " in module cache")
     <> Inconclusive.
Proof.
  split.
  - apply (proj1 (classify_extension (lit "2024 [info] ")
                    (lit "using go.mod at /w") (lit "; done"))).
    reflexivity.
  - apply (proj1 (proj2 (classify_extension (lit "pkg ") (lit "not found")
                           (lit " in module cache")))).
    discriminate.
Defined.

End ClassifierExtras.

(* ================================================================== *)
(** ** The probe: the shape of every run *)

Section ProbeTraces.

#[local] Opaque slice_to lit verdict_line classify.

Ltac unfold_probe :=
  unfold run_trace, test_workspace_recognition, try_except_finally,
    stdin_write, stdin_flush, stdin_close, stdin_call, communicate, poll,
    terminate, popen, print, sleep, enter, get_process, emit, bind, ret,
    raise.

(** A run that started its process: the two first lines, some first
    calls of the script, the lines of the outcome, the cleanup. *)
Lemma run_shape sp uri desc :
  popen_raises sp = None ->
  exists k lines,
    (1 <= k)%nat
    /\ run_trace sp uri desc
       = Print (header_line desc) :: Print (uri_line uri)
         :: firstn k (script uri) ++ map Print lines ++ cleanup sp.
Proof.
  intros Hp. unfold script, cleanup, header_line, uri_line.
  unfold run_trace, test_workspace_recognition.
  generalize (init_msg uri) (didopen_msg uri) initialized_msg.
  intros m1 m3 m2.
  destruct sp as [pr sr cr po]; simpl in Hp; subst.
  unfold_probe; simpl.
  destruct (sr 0%nat) as [e|]; simpl;
    [exists 1%nat, [lit "Error: " ++ exc_text e];
     split; [lia | destruct po; reflexivity]|].
  destruct (sr 1%nat) as [e|]; simpl;
    [exists 2%nat, [lit "Error: " ++ exc_text e];
     split; [lia | destruct po; reflexivity]|].
  destruct (sr 2%nat) as [e|]; simpl;
    [exists 4%nat, [lit "Error: " ++ exc_text e];
     split; [lia | destruct po; reflexivity]|].
  destruct (sr 3%nat) as [e|]; simpl;
    [exists 5%nat, [lit "Error: " ++ exc_text e];
     split; [lia | destruct po; reflexivity]|].
  destruct (sr 4%nat) as [e|]; simpl;
    [exists 6%nat, [lit "Error: " ++ exc_text e];
     split; [lia | destruct po; reflexivity]|].
  destruct (sr 5%nat) as [e|]; simpl;
    [exists 7%nat, [lit "Error: " ++ exc_text e];
     split; [lia | destruct po; reflexivity]|].
  destruct (sr 6%nat) as [e|]; simpl;
    [exists 9%nat, [lit "Error: " ++ exc_text e];
     split; [lia | destruct po; reflexivity]|].
  destruct cr as [e|[out err]]; simpl.
  - exists 11%nat, [lit "Error: " ++ exc_text e].
    split; [lia | destruct po; reflexivity].
  - exists 11%nat, [lit "STDOUT: " ++ slice_to 500 out ++ lit "...";
                    lit "STDERR: " ++ slice_to 500 err ++ lit "...";
                    verdict_line (classify err)].
    split; [lia | destruct po; reflexivity].
Qed.

(** A run whose [Popen] raised. *)
Lemma run_trace_not_spawned sp uri desc e :
  popen_raises sp = Some e ->
  run_trace sp uri desc
  = [Print (header_line desc); Print (uri_line uri); Print (error_line e)].
Proof.
  intros Hp. unfold header_line, uri_line, error_line.
  unfold run_trace, test_workspace_recognition.
  generalize (init_msg uri) (didopen_msg uri) initialized_msg.
  intros m1 m3 m2.
  destruct sp as [pr sr cr po]; simpl in Hp; subst.
  unfold_probe; simpl. reflexivity.
Qed.

(** The lines of a run in which a call on [stdin] raised. *)
Lemma printed_stdin_failure sp uri desc i e :
  popen_raises sp = None ->
  (i < 7)%nat ->
  (forall j, (j < i)%nat -> stdin_raises sp j = None) ->
  stdin_raises sp i = Some e ->
  printed (run_trace sp uri desc)
  = [header_line desc; uri_line uri; error_line e].
Proof.
  intros Hp Hi Hok He. unfold header_line, uri_line, error_line.
  unfold run_trace, test_workspace_recognition.
  generalize (init_msg uri) (didopen_msg uri) initialized_msg.
  intros m1 m3 m2.
  destruct sp as [pr sr cr po]; simpl in Hp, Hok, He; subst.
  unfold_probe; simpl.
  do 7 (destruct i as [|i];
        [repeat (rewrite Hok by lia; simpl); rewrite He; simpl;
         destruct po; reflexivity|]).
  lia.
Qed.

(** The events of a run in which [communicate] raised. *)
Lemma run_trace_communicate_failure sp uri desc e :
  popen_raises sp = None ->
  (forall n, (n < 7)%nat -> stdin_raises sp n = None) ->
  communicate_result sp = inl e ->
  run_trace sp uri desc
  = Print (header_line desc) :: Print (uri_line uri)
    :: script uri ++ [Print (error_line e)] ++ cleanup sp.
Proof.
  intros Hp Hs Hc. unfold script, cleanup, header_line, uri_line, error_line.
  unfold run_trace, test_workspace_recognition.
  generalize (init_msg uri) (didopen_msg uri) initialized_msg.
  intros m1 m3 m2.
  destruct sp as [pr sr cr po]; simpl in Hp, Hs, Hc; subst.
  unfold_probe; simpl.
  repeat (rewrite Hs by lia; simpl).
  destruct po; reflexivity.
Qed.

(** A run only adds to the trace, and what it adds does not depend on
    what came before. *)
Lemma run_appends sp uri desc st :
  trace (snd (test_workspace_recognition sp uri desc st))
  = trace st ++ run_trace sp uri desc.
Proof.
  unfold run_trace, test_workspace_recognition.
  generalize (init_msg uri) (didopen_msg uri) initialized_msg.
  intros m1 m3 m2.
  destruct sp as [pr sr cr po].
  unfold_probe; simpl.
  destruct pr; simpl; [now rewrite <- !List.app_assoc|].
  destruct (sr 0%nat); simpl;
    [destruct po; simpl; now rewrite <- !List.app_assoc|].
  destruct (sr 1%nat); simpl;
    [destruct po; simpl; now rewrite <- !List.app_assoc|].
  destruct (sr 2%nat); simpl;
    [destruct po; simpl; now rewrite <- !List.app_assoc|].
  destruct (sr 3%nat); simpl;
    [destruct po; simpl; now rewrite <- !List.app_assoc|].
  destruct (sr 4%nat); simpl;
    [destruct po; simpl; now rewrite <- !List.app_assoc|].
  destruct (sr 5%nat); simpl;
    [destruct po; simpl; now rewrite <- !List.app_assoc|].
  destruct (sr 6%nat); simpl;
    [destruct po; simpl; now rewrite <- !List.app_assoc|].
  destruct cr as [e|[out err]]; simpl; destruct po; simpl;
    now rewrite <- !List.app_assoc.
Qed.

End ProbeTraces.

(* ================================================================== *)
(** ** The probe: further properties of [test_workspace_recognition] *)

Section ProbeExtras.

Lemma printed_app (a b : list event) :
  printed (a ++ b) = printed a ++ printed b.
Proof.
  induction a as [|ev a IH]; [reflexivity|].
  destruct ev; simpl; try exact IH. now rewrite IH.
Qed.

Lemma printed_map_Print (l : list str) : printed (map Print l) = l.
Proof. induction l as [|x l IH]; simpl; [reflexivity | now rewrite IH]. Qed.

Lemma in_firstn {A} (x : A) (k : nat) (l : list A) :
  In x (firstn k l) -> In x l.
Proof.
  intros H. rewrite <- (firstn_skipn k l). apply in_or_app. now left.
Qed.

Lemma script_has_no_print (uri : str) (k : nat) :
  printed (firstn k (script uri)) = []
  /\ protocol_events (firstn k (script uri)) = firstn k (script uri).
Proof.
  unfold script.
  do 12 (destruct k as [|k]; [split; reflexivity|]).
  split; reflexivity.
Qed.

Lemma cleanup_has_no_print (sp : subprocess) :
  printed (cleanup sp) = [] /\ protocol_events (cleanup sp) = cleanup sp.
Proof. unfold cleanup. destruct (poll_result sp); split; reflexivity. Qed.

Lemma protocol_events_app (a b : list event) :
  protocol_events (a ++ b) = protocol_events a ++ protocol_events b.
Proof. apply filter_app. Qed.

Lemma protocol_events_map_Print (l : list str) :
  protocol_events (map Print l) = [].
Proof. induction l as [|x l IH]; [reflexivity | exact IH]. Qed.

(** The lines of a run that captured the two texts. *)
Lemma printed_of_capture sp uri desc out err :
  captures sp out err ->
  printed (run_trace sp uri desc)
  = [header_line desc; uri_line uri;
     lit "STDOUT: " ++ slice_to 500 out ++ lit "...";
     lit "STDERR: " ++ slice_to 500 err ++ lit "...";
     verdict_line (classify err)].
Proof.
  intros (Hp & Hs & Hc).
  rewrite (run_trace_completed sp uri desc out err Hp Hs Hc).
  rewrite printed_app.
  change (match poll_result sp with
          | Some _ => []
          | None => [Terminate]
          end) with (cleanup sp).
  rewrite (proj1 (cleanup_has_no_print sp)), List.app_nil_r.
  reflexivity.
Qed.

(** X5: the verdict is computed on the whole error text, the line
    [STDERR: ...] shows its first 500 characters only: what follows
    them changes the verdict and not the excerpt. *)
Theorem verdict_uses_whole_stderr sp uri desc out (p q : str) :
  captures sp out (p ++ q) ->
  (500 <= List.length p)%nat ->
  printed (run_trace sp uri desc)
  = [header_line desc; uri_line uri;
     lit "STDOUT: " ++ slice_to 500 out ++ lit "...";
     lit "STDERR: " ++ slice_to 500 p ++ lit "...";
     verdict_line (classify (p ++ q))].
Proof.
  intros Hc Hlen. rewrite (printed_of_capture sp uri desc out (p ++ q) Hc).
  unfold slice_to. rewrite (firstn_app 500 p q).
  replace (500 - List.length p)%nat with 0%nat by lia.
  cbn [firstn]. now rewrite List.app_nil_r.
Qed.

Lemma verdict_uses_whole_stderr_witness :
  printed (run_trace
             (well_behaved [] (repeat 46 500 ++ lit " found go.mod") None)
             container_uri container_description)
  = [header_line container_description; uri_line container_uri;
     lit "STDOUT: " ++ slice_to 500 [] ++ lit "...";
     lit "STDERR: " ++ slice_to 500 (repeat 46 500) ++ lit "...";
     verdict_line (classify (repeat 46 500 ++ lit " found go.mod"))].
Proof.
  apply verdict_uses_whole_stderr.
  - split; [reflexivity | split; [intros; reflexivity | reflexivity]].
  - rewrite repeat_length. apply le_n.
Defined.

(** X6: each of the lines [STDOUT: ...] and [STDERR: ...] has at most
    511 characters; a text of at most 500 characters is shown whole,
    and the three dots follow it although nothing was cut. *)
Theorem excerpts_are_bounded sp uri desc out err :
  captures sp out err ->
  exists l_out l_err,
    printed (run_trace sp uri desc)
    = [header_line desc; uri_line uri; l_out; l_err;
       verdict_line (classify err)]
    /\ (List.length l_out <= 511)%nat
    /\ (List.length l_err <= 511)%nat
    /\ ((List.length out <= 500)%nat ->
        l_out = lit "STDOUT: " ++ out ++ lit "...")
    /\ ((List.length err <= 500)%nat ->
        l_err = lit "STDERR: " ++ err ++ lit "...").
Proof.
  intros Hc.
  exists (lit "STDOUT: " ++ slice_to 500 out ++ lit "..."),
         (lit "STDERR: " ++ slice_to 500 err ++ lit "...").
  split; [now apply printed_of_capture|].
  unfold slice_to.
  pose proof (firstn_le_length 500 out).
  pose proof (firstn_le_length 500 err).
  repeat split.
  - rewrite !List.length_app.
    change (List.length (lit "STDOUT: ")) with 8%nat.
    change (List.length (lit "...")) with 3%nat. lia.
  - rewrite !List.length_app.
    change (List.length (lit "STDERR: ")) with 8%nat.
    change (List.length (lit "...")) with 3%nat. lia.
  - intros Hl. now rewrite firstn_all2.
  - intros Hl. now rewrite firstn_all2.
Qed.

Lemma excerpts_are_bounded_witness :
  exists l_out l_err,
    printed (run_trace (well_behaved (lit "{}") (lit "warning") (Some 0%Z))
                       container_uri container_description)
    = [header_line container_description; uri_line container_uri;
       l_out; l_err; verdict_line (classify (lit "warning"))]
    /\ l_err = lit "STDERR: " ++ lit "warning" ++ lit "...".
Proof.
  destruct (excerpts_are_bounded
              (well_behaved (lit "{}") (lit "warning") (Some 0%Z))
              container_uri container_description
              (lit "{}") (lit "warning"))
    as (l_out & l_err & Hp & _ & _ & _ & He).
  - split; [reflexivity | split; [intros; reflexivity | reflexivity]].
  - exists l_out, l_err. split; [exact Hp|].
    apply He. simpl. repeat constructor.
Defined.

(** X7: in every run, whatever fails, the calls made on the subprocess
    are the first few of the script, in its order: the process is
    started once and first, each message is written and then flushed,
    [stdin] is closed before [communicate] and nothing is written after
    that; the cleanup of a started process comes last.  When [Popen]
    raises there is no process and no call is made. *)
Theorem run_follows_script sp uri desc :
  match popen_raises sp with
  | Some _ => protocol_events (run_trace sp uri desc) = []
  | None =>
      exists k,
        (1 <= k)%nat
        /\ protocol_events (run_trace sp uri desc)
           = firstn k (script uri) ++ cleanup sp
  end.
Proof.
  destruct (popen_raises sp) as [e|] eqn:Hp.
  - now rewrite (run_trace_not_spawned sp uri desc e Hp).
  - destruct (run_shape sp uri desc Hp) as (k & lines & Hk & ->).
    exists k. split; [exact Hk|].
    change (Print (header_line desc) :: Print (uri_line uri)
            :: firstn k (script uri) ++ map Print lines ++ cleanup sp)
      with (map Print [header_line desc; uri_line uri]
            ++ firstn k (script uri) ++ map Print lines ++ cleanup sp).
    rewrite !protocol_events_app, !protocol_events_map_Print.
    rewrite (proj2 (script_has_no_print uri k)).
    now rewrite (proj2 (cleanup_has_no_print sp)).
Qed.

(** X8: a process that was started and is still running when the run
    ends is terminated, once and as the last thing the run does,
    whatever failed before; a process that has exited is not. *)
Theorem running_process_is_terminated sp uri desc :
  popen_raises sp = None ->
  (poll_result sp = None ->
   exists t, run_trace sp uri desc = t ++ [Terminate] /\ ~ In Terminate t)
  /\ (poll_result sp <> None -> ~ In Terminate (run_trace sp uri desc)).
Proof.
  intros Hp.
  destruct (run_shape sp uri desc Hp) as (k & lines & _ & E).
  assert (Hno : ~ In Terminate
                  (Print (header_line desc) :: Print (uri_line uri)
                   :: firstn k (script uri) ++ map Print lines)).
  { intros [H|[H|H]]; try discriminate.
    apply in_app_or in H as [H|H].
    - apply in_firstn in H. unfold script in H. simpl in H.
      repeat (destruct H as [H|H]; [discriminate|]). exact H.
    - apply in_map_iff in H as (x & Hx & _). discriminate. }
  rewrite E. unfold cleanup. split.
  - intros ->. eexists. split; [|exact Hno].
    cbn [app]. now rewrite <- List.app_assoc.
  - intros Hpoll. destruct (poll_result sp); [|now contradiction Hpoll].
    now rewrite List.app_nil_r.
Qed.

Lemma running_process_is_terminated_witness :
  exists t,
    run_trace (well_behaved [] [] None) container_uri container_description
    = t ++ [Terminate] /\ ~ In Terminate t.
Proof.
  apply (proj1 (running_process_is_terminated
                  (well_behaved [] [] None)
                  container_uri container_description eq_refl)).
  reflexivity.
Defined.

Lemma reported_error_lines desc uri e :
  reported [header_line desc; uri_line uri; error_line e] = [].
Proof.
  unfold header_line, uri_line, error_line. cbn [reported].
  change (verdict_of_line (nl ++ lit "=== TESTING: " ++ desc ++ lit " ==="))
    with (@None verdict).
  change (verdict_of_line (lit "Workspace URI: " ++ uri)) with (@None verdict).
  change (verdict_of_line (lit "Error: " ++ exc_text e)) with (@None verdict).
  reflexivity.
Qed.

(** X9: when a write, a flush or the close of [stdin] raises, the run
    prints one line [Error: ...] with the text of that exception after
    its two first lines, and no verdict: the error text is not
    classified. *)
Theorem stdin_failure_prints_error sp uri desc i e :
  popen_raises sp = None ->
  (i < 7)%nat ->
  (forall j, (j < i)%nat -> stdin_raises sp j = None) ->
  stdin_raises sp i = Some e ->
  printed (run_trace sp uri desc)
  = [header_line desc; uri_line uri; error_line e]
  /\ reported (printed (run_trace sp uri desc)) = [].
Proof.
  intros Hp Hi Hok He.
  rewrite (printed_stdin_failure sp uri desc i e Hp Hi Hok He).
  split; [reflexivity | apply reported_error_lines].
Qed.

Lemma stdin_failure_prints_error_witness :
  printed (run_trace (pipe_closed_at 2) container_uri container_description)
  = [header_line container_description; uri_line container_uri;
     lit "Error: " ++ lit "[Errno 32] Broken pipe"].
Proof.
  apply (stdin_failure_prints_error (pipe_closed_at 2)
           container_uri container_description 2%nat
           {| exc_class := BrokenPipeError;
              exc_text := lit "[Errno 32] Broken pipe" |}).
  - reflexivity.
  - lia.
  - intros [|[|j]] Hj; [reflexivity | reflexivity | lia].
  - reflexivity.
Defined.

(** X10: when [communicate] raises (its timeout, for one), all three
    messages were sent and [stdin] was closed; the run prints the line
    [Error: ...] and no verdict, whatever the process had written, and
    terminates the process if it still runs. *)
Theorem communicate_failure_prints_error sp uri desc e :
  popen_raises sp = None ->
  (forall n, (n < 7)%nat -> stdin_raises sp n = None) ->
  communicate_result sp = inl e ->
  protocol_events (run_trace sp uri desc) = script uri ++ cleanup sp
  /\ printed (run_trace sp uri desc)
     = [header_line desc; uri_line uri; error_line e]
  /\ reported (printed (run_trace sp uri desc)) = [].
Proof.
  intros Hp Hs Hc.
  rewrite (run_trace_communicate_failure sp uri desc e Hp Hs Hc).
  change (Print (header_line desc) :: Print (uri_line uri)
          :: script uri ++ [Print (error_line e)] ++ cleanup sp)
    with (map Print [header_line desc; uri_line uri]
          ++ firstn 11 (script uri) ++ map Print [error_line e] ++ cleanup sp).
  rewrite !protocol_events_app, !protocol_events_map_Print.
  rewrite !printed_app, !printed_map_Print.
  rewrite (proj1 (script_has_no_print uri 11)),
          (proj2 (script_has_no_print uri 11)).
  rewrite (proj1 (cleanup_has_no_print sp)),
          (proj2 (cleanup_has_no_print sp)).
  split; [reflexivity|]. split; [reflexivity|].
  apply reported_error_lines.
Qed.

Lemma communicate_failure_prints_error_witness :
  printed (run_trace timed_out container_uri container_description)
  = [header_line container_description; uri_line container_uri;
     lit "Error: " ++ lit "timed out after 5 seconds"].
Proof.
  apply (communicate_failure_prints_error timed_out
           container_uri container_description
           {| exc_class := TimeoutExpired;
              exc_text := lit "timed out after 5 seconds" |}).
  - reflexivity.
  - intros; reflexivity.
  - reflexivity.
Defined.

End ProbeExtras.

(* ================================================================== *)
(** ** The runner and the messages of the probe *)

Section RunnerExtras.

(** X11: when both processes start, the runner ends normally and its
    trace is its first line, the run of the first scenario, the run of
    the second and the four closing lines: what the second scenario
    does is what it would do on its own, whatever happened in the
    first. *)
Theorem runner_runs_scenarios_in_turn sp1 sp2 :
  popen_raises sp1 = None ->
  popen_raises sp2 = None ->
  fst (main sp1 sp2 start) = Ok tt
  /\ trace (snd (main sp1 sp2 start))
     = Print (lit "=== PHASE 0: GOPLS WORKSPACE RECOGNITION TEST ===")
       :: run_trace sp1 host_uri host_description
       ++ run_trace sp2 container_uri container_description
       ++ map Print closing_lines.
Proof.
  intros H1 H2.
  assert (H : exists st,
             main sp1 sp2 start = (Ok tt, st)
             /\ trace st
                = Print (lit "=== PHASE 0: GOPLS WORKSPACE RECOGNITION TEST ===")
                  :: run_trace sp1 host_uri host_description
                  ++ run_trace sp2 container_uri container_description
                  ++ map Print closing_lines).
  { unfold main, bind, print, emit. cbn [start trace process stdin_calls app].
    match goal with
    | |- context [test_workspace_recognition sp1 ?u ?d ?s] =>
        pose proof (failure_after_spawn_is_local sp1 u d s H1) as L1;
        pose proof (run_appends sp1 u d s) as T1;
        destruct (test_workspace_recognition sp1 u d s) as [r1 st1]
    end.
    cbn [fst snd trace app] in L1, T1. subst r1.
    pose proof (failure_after_spawn_is_local sp2 container_uri
                  container_description st1 H2) as L2.
    pose proof (run_appends sp2 container_uri container_description st1)
      as T2.
    destruct (test_workspace_recognition sp2 container_uri
                container_description st1) as [r2 st2].
    cbn [fst snd] in L2, T2. subst r2.
    eexists. split; [reflexivity|].
    cbn [trace]. rewrite T2, T1. unfold closing_lines.
    cbn [map app]. now rewrite <- !List.app_assoc. }
  destruct H as (st & -> & Ht). split; [reflexivity | exact Ht].
Qed.

Lemma runner_runs_scenarios_in_turn_witness :
  fst (main timed_out (pipe_closed_at 0) start) = Ok tt.
Proof.
  apply (runner_runs_scenarios_in_turn timed_out (pipe_closed_at 0));
    reflexivity.
Defined.

Lemma wf_str_app (a b : str) (c : N) :
  wf_str a = true ->
  wf_str (c :: b) = true ->
  is_low_surrogate c = false ->
  wf_str (a ++ c :: b) = true.
Proof.
  unfold wf_str. rewrite !andb_true_iff.
  intros [Ha Hpa] [Hb Hpb] Hc. split.
  - rewrite forallb_app. now rewrite Ha, Hb.
  - clear Ha Hb. induction a as [|x a IH]; [exact Hpb|].
    destruct a as [|y a].
    + change (negb (is_high_surrogate x && is_low_surrogate c)
              && no_surrogate_pair (c :: b) = true).
      now rewrite Hc, andb_false_r, Hpb.
    + change (negb (is_high_surrogate x && is_low_surrogate y)
              && no_surrogate_pair (y :: a) = true) in Hpa.
      apply andb_true_iff in Hpa as [Hxy Hpa].
      change (negb (is_high_surrogate x && is_low_surrogate y)
              && no_surrogate_pair ((y :: a) ++ c :: b) = true).
      now rewrite Hxy, (IH Hpa).
Qed.

(** X12: for every workspace locator, ASCII or not, each of the three
    strings the probe writes is a frame that a receiver reads back to
    the message it was built from: the initialize request with id 1,
    and the two notifications, the document text with its quotes, tabs
    and line breaks included. *)
Theorem probe_messages_read_back (uri : str) :
  wf_str uri = true ->
  read_message (init_msg uri)
  = Some (build_message (lit "initialize") (init_params uri) (PyInt 1))
  /\ read_message initialized_msg
     = Some (build_message (lit "initialized") (PyDict []) PyNone)
  /\ read_message (didopen_msg uri)
     = Some (build_message (lit "textDocument/didOpen")
                           (didopen_params uri) PyNone).
Proof.
  intros Hu.
  assert (Hgo : wf_str (uri ++ lit "/main.go") = true)
    by (apply wf_str_app; [exact Hu | reflexivity | reflexivity]).
  split; [|split].
  - apply read_message_frame. apply wf_build_message; [reflexivity | | reflexivity].
    unfold init_params. cbn [wf_value forallb fst snd map]. rewrite Hu.
    reflexivity.
  - apply read_message_frame. reflexivity.
  - apply read_message_frame. apply wf_build_message; [reflexivity | | reflexivity].
    unfold didopen_params. cbn [wf_value forallb fst snd map]. rewrite Hgo.
    reflexivity.
Qed.

Lemma probe_messages_read_back_witness :
  read_message (init_msg (lit "file:///home/" ++ [26085; 26412; 128512]))
  = Some (build_message (lit "initialize")
            (init_params (lit "file:///home/" ++ [26085; 26412; 128512]))
            (PyInt 1)).
Proof.
  apply (probe_messages_read_back
           (lit "file:///home/" ++ [26085; 26412; 128512])).
  reflexivity.
Defined.

End RunnerExtras.

(* ================================================================== *)
(** ** The example program: sums and the calculator's history *)

Section ExampleProgram.

Import PythonExample.

Lemma fold_add_acc (l : list Z) (acc : Z) :
  fold_left Z.add l acc = (acc + fold_left Z.add l 0)%Z.
Proof.
  revert acc. induction l as [|x l IH]; intros acc; simpl; [lia|].
  rewrite (IH (acc + x)%Z), (IH x). lia.
Qed.

(** X13: the sum of no numbers is 0, the sum of two lists put together
    is the sum of their sums, and the order of the numbers does not
    matter. *)
Theorem calculate_sum_additive (a b : list Z) :
  calculate_sum [] = 0%Z
  /\ calculate_sum (a ++ b) = (calculate_sum a + calculate_sum b)%Z
  /\ (forall l, Permutation a l -> calculate_sum l = calculate_sum a).
Proof.
  unfold calculate_sum. split; [reflexivity|]. split.
  - rewrite fold_left_app, fold_add_acc. reflexivity.
  - intros l H. induction H as [|x l1 l2 H IH|x y l1|l1 l2 l3 H1 IH1 H2 IH2];
      simpl.
    + reflexivity.
    + rewrite (fold_add_acc l2 x), (fold_add_acc l1 x). lia.
    + rewrite (fold_add_acc l1 (x + y)), (fold_add_acc l1 (y + x)). lia.
    + congruence.
Qed.

Lemma calculate_sum_additive_witness :
  calculate_sum [5; 4; 3; 2; 1]%Z = calculate_sum [1; 2; 3; 4; 5]%Z.
Proof.
  apply (proj2 (proj2 (calculate_sum_additive [1; 2; 3; 4; 5]%Z []))).
  apply Permutation_rev.
Defined.

(** *** The heap *)














End ExampleProgram.

(* ================================================================== *)
(** ** The probe: a process that does not start *)

Section SpawnFailure.

(** X17: when [Popen] raises, whatever the exception, the scenario and
    the state before it: nothing is sent, the line [Error: ...] with
    the text of the exception is printed, and the call does not return:
    the [finally] clause raises [UnboundLocalError] on the unbound
    [process]. *)
Theorem spawn_failure_is_not_caught sp uri desc st e :
  popen_raises sp = Some e ->
  exists e' st',
    test_workspace_recognition sp uri desc st = (Raise e', st')
    /\ exc_class e' = UnboundLocalError
    /\ trace st'
       = trace st ++ [Print (header_line desc); Print (uri_line uri);
                      Print (error_line e)]
    /\ protocol_events (run_trace sp uri desc) = []
    /\ written (run_trace sp uri desc) = [].
Proof.
  intros Hp.
  destruct (spawn_failure_escapes sp uri desc st e Hp)
    as (e' & st' & E & Hc & Ht).
  exists e', st'. repeat split; try assumption.
  - now rewrite (run_trace_not_spawned sp uri desc e Hp).
  - now rewrite (run_trace_not_spawned sp uri desc e Hp).
Qed.

Lemma spawn_failure_is_not_caught_witness :
  protocol_events (run_trace not_spawned host_uri host_description) = [].
Proof.
  destruct (spawn_failure_is_not_caught not_spawned host_uri
              host_description start
              {| exc_class := FileNotFoundError;
                 exc_text :=
                   lit "[Errno 2] No such file or directory: 'docker'" |}
              eq_refl)
    as (e' & st' & _ & _ & _ & H & _).
  exact H.
Defined.

End SpawnFailure.
